(** * ribbit-next-app: the kintone usage recorder and the counter reader

    A shallow embedding of the two API routes
      - [src/pages/api/kintone/user.ts]  (the recorder, POST), and
      - the counter route                (the reader, GET),
    over a typed picture of the Realtime Database tree below [kintone/].

    Modelling choices, all fixed here:
      - the five collections of the tree are finite maps keyed by the last
        path segment (a host id or an ISO date); a key is an opaque string,
        so the client's own path grammar is not part of the model;
      - every [get], [set] and [update] may reject; an oracle of the
        environment decides it from the position of the operation in the
        run and from the operation itself;
      - [await]ed calls are sequenced; the one call that is not awaited is
        a floating promise whose rejection nobody handles;
      - numbers are integers ([Z]): counters stay far below 2^53. *)

From Stdlib Require Import ZArith String Ascii List Bool Lia.
From stdpp Require Import base option list gmap strings fin_maps.

Local Open Scope string_scope.
Local Open Scope Z_scope.

(** ** JSON values

    What [JSON.parse] can put in a field. The declared type of the body is
    not checked at run time; the model follows the declaration for every
    field but [hostname], on which [updateRtdb] calls a string method
    outside all of its [try] blocks. A number counts only as zero or not. *)

#[local] Unset Elimination Schemes.
Inductive JSON :=
| JNull
| JBool (b : bool)
| JNumber (n : Z)
| JString (s : string)
| JArray (l : list JSON)
| JObject (fields : list (string * JSON)).
#[local] Set Elimination Schemes.

(** Truthiness, as [||] and [!] see it. *)
Definition truthy (v : JSON) : bool :=
  match v with
  | JNull => false
  | JBool b => b
  | JNumber n => negb (n =? 0)
  | JString s => negb (String.eqb s EmptyString)
  | JArray _ | JObject _ => true
  end.

(** ** Strings *)

Module Str.

(** [strip_prefix p s] is what is left of [s] after a leading [p]. *)
Fixpoint strip_prefix (p s : string) : option string :=
  match p with
  | EmptyString => Some s
  | String a p' =>
      match s with
      | String b s' => if Ascii.eqb a b then strip_prefix p' s' else None
      | EmptyString => None
      end
  end.

(** [strip_suffix q s] is what is left of [s] in front of a trailing [q]. *)
Fixpoint strip_suffix (q s : string) : option string :=
  if String.eqb s q then Some EmptyString
  else match s with
       | EmptyString => None
       | String c s' => option_map (String c) (strip_suffix q s')
       end.

(** Every tail of a string, the string itself first. *)
Fixpoint tails (s : string) : list string :=
  s :: match s with
       | EmptyString => []
       | String _ s' => tails s'
       end.

End Str.

(** ** Host ids

    [updateRtdb], lines 51-55:
<<
      const hostname = body.hostname || '___undefined';
      const formattedHostname = hostname
        .replace(/(\.s)?\.(cybozu|kintone)\.com/, '')
        .replace(/\./g, '_dot_');
>> *)

Module HostId.

Import Str.

(** [\.(cybozu|kintone)\.com] at the head of [s]: the rest after the match.
    The alternatives are tried in order. *)
Definition match_domain (s : string) : option string :=
  match strip_prefix "." s with
  | None => None
  | Some s1 =>
      match (match strip_prefix "cybozu" s1 with
             | Some s2 => strip_prefix ".com" s2
             | None => None
             end) with
      | Some r => Some r
      | None =>
          match strip_prefix "kintone" s1 with
          | Some s2 => strip_prefix ".com" s2
          | None => None
          end
      end
  end.

(** [(\.s)?\.(cybozu|kintone)\.com] at the head of [s]. The optional group
    is greedy: it is taken first, and given up when the rest fails. *)
Definition match_here (s : string) : option string :=
  match strip_prefix ".s" s with
  | Some s1 =>
      match match_domain s1 with
      | Some r => Some r
      | None => match_domain s
      end
  | None => match_domain s
  end.

(** [String.prototype.replace] with that pattern (no [g] flag) and the empty
    replacement: the leftmost match is deleted, nothing else. *)
Fixpoint replace_suffix_pattern (s : string) : string :=
  match match_here s with
  | Some r => r
  | None =>
      match s with
      | EmptyString => EmptyString
      | String c s' => String c (replace_suffix_pattern s')
      end
  end.

(** [.replace(/\./g, '_dot_')]. *)
Fixpoint replace_dots (s : string) : string :=
  match s with
  | EmptyString => EmptyString
  | String c s' =>
      if Ascii.eqb c "."%char then "_dot_" ++ replace_dots s'
      else String c (replace_dots s')
  end.

Definition formatHostname (hostname : string) : string :=
  replace_dots (replace_suffix_pattern hostname).

(** [body.hostname || '___undefined']: an absent field and a falsy value
    give the default. *)
Definition or_undefined (hostname : option JSON) : JSON :=
  match hostname with
  | Some v => if truthy v then v else JString "___undefined"
  | None => JString "___undefined"
  end.

(** The host id of a request, or [None] when [hostname.replace] is not a
    function: only a string has the method. *)
Definition hostId (hostname : option JSON) : option string :=
  match or_undefined hostname with
  | JString h => Some (formatHostname h)
  | _ => None
  end.

(** The spec's wording, for comparison with the code: "platform-specific
    suffixes are stripped, then literal dots are replaced". A suffix sits at
    the end of the name; the longer suffixes are tried first, as the spec's
    own example [foo.s.kintone.com] needs. *)
Definition strip_platform_suffix (s : string) : string :=
  match strip_suffix ".s.cybozu.com" s with
  | Some p => p
  | None =>
      match strip_suffix ".s.kintone.com" s with
      | Some p => p
      | None =>
          match strip_suffix ".cybozu.com" s with
          | Some p => p
          | None =>
              match strip_suffix ".kintone.com" s with
              | Some p => p
              | None => s
              end
          end
      end
  end.

(** "An absent/empty hostname maps to a fixed sentinel host id." *)
Definition hostId_by_suffix (hostname : option string) : string :=
  match hostname with
  | None | Some EmptyString => "___undefined"
  | Some h => replace_dots (strip_platform_suffix h)
  end.

(** The pattern occurs in [s] only as its very end, or not at all. *)
Definition pattern_only_at_end (s : string) : bool :=
  forallb (fun t => match match_here t with
                    | None => true
                    | Some r => String.eqb r EmptyString
                    end) (tails s).

End HostId.

(** ** Dates

    The two routes read the wall clock through luxon's [DateTime]. The model
    keeps what they use of it: an instant in epoch milliseconds, the zone's
    offset in minutes at an instant, [plus({ hours })], [toISODate] and
    [toUnixInteger]. *)

Module Luxon.

Record DateTime := { ts : Z; zone : Z -> Z }.

Definition plus_hours (dt : DateTime) (hours : Z) : DateTime :=
  {| ts := ts dt + hours * 3600000; zone := zone dt |}.

Definition toUnixInteger (dt : DateTime) : Z := ts dt / 1000.

(** Days since 1970-01-01 on the zone's own calendar. *)
Definition local_day (dt : DateTime) : Z :=
  (ts dt + zone dt (ts dt) * 60000) / 86400000.

(** The proleptic Gregorian date of a day number: (year, month, day). *)
Definition civil_from_days (days : Z) : Z * Z * Z :=
  let z := days + 719468 in
  let era := z / 146097 in
  let doe := z - era * 146097 in
  let yoe := (doe - doe / 1460 + doe / 36524 - doe / 146096) / 365 in
  let doy := doe - (365 * yoe + yoe / 4 - yoe / 100) in
  let mp := (5 * doy + 2) / 153 in
  let d := doy - (153 * mp + 2) / 5 + 1 in
  let m := if mp <? 10 then mp + 3 else mp - 9 in
  let y := yoe + era * 400 + (if m <=? 2 then 1 else 0) in
  (y, m, d).

Definition digit (n : Z) : ascii := ascii_of_nat (48 + Z.to_nat (n mod 10)).

(** The last [width] decimal digits of [n], zero padded. *)
Fixpoint padStart (width : nat) (n : Z) (acc : string) : string :=
  match width with
  | O => acc
  | S width' => padStart width' (n / 10) (String (digit n) acc)
  end.

Definition format_year (y : Z) : string :=
  if (0 <=? y) && (y <=? 9999) then padStart 4 y EmptyString
  else if 0 <=? y then "+" ++ padStart 6 y EmptyString
  else "-" ++ padStart 6 (- y) EmptyString.

Definition toISODate (dt : DateTime) : string :=
  let '(y, m, d) := civil_from_days (local_day dt) in
  format_year y ++ "-" ++ padStart 2 m EmptyString ++ "-" ++ padStart 2 d EmptyString.

End Luxon.

(** ** The store *)

Module User.
Record t := { name : option string; pluginNames : list string }.
End User.

Module Summary.
Record t := { unixTime : Z; numUsers : Z; counter : Z }.
End Summary.

Module Store.
Record t := {
  users : gmap string User.t;
  counter : gmap string Z;
  installDate : gmap string string;
  lastModified : gmap string string;
  summary : gmap string Summary.t
}.

Definition empty : t :=
  {| users := ∅; counter := ∅; installDate := ∅; lastModified := ∅; summary := ∅ |}.

Definition with_users (f : gmap string User.t -> gmap string User.t) (d : t) : t :=
  {| users := f (users d); counter := counter d; installDate := installDate d;
     lastModified := lastModified d; summary := summary d |}.
Definition with_counter (f : gmap string Z -> gmap string Z) (d : t) : t :=
  {| users := users d; counter := f (counter d); installDate := installDate d;
     lastModified := lastModified d; summary := summary d |}.
Definition with_installDate (f : gmap string string -> gmap string string) (d : t) : t :=
  {| users := users d; counter := counter d; installDate := f (installDate d);
     lastModified := lastModified d; summary := summary d |}.
Definition with_lastModified (f : gmap string string -> gmap string string) (d : t) : t :=
  {| users := users d; counter := counter d; installDate := installDate d;
     lastModified := f (lastModified d); summary := summary d |}.
Definition with_summary (f : gmap string Summary.t -> gmap string Summary.t) (d : t) : t :=
  {| users := users d; counter := counter d; installDate := installDate d;
     lastModified := lastModified d; summary := f (summary d) |}.
End Store.

(** One request to the store, as the oracle sees it. *)
Inductive StoreOp :=
| OpGet (path : string)
| OpSet (path : string)
| OpUpdate (path : string).

(** ** Requests, responses, errors *)

Module Body.
(** [ExpectedRequestBody]; [None] is an absent (or null) field. *)
Record t := {
  hostname : option JSON;
  pluginNames : option (list string);
  page : option string;
  email : option string;
  appName : option string
}.
Definition empty : t :=
  {| hostname := None; pluginNames := None; page := None; email := None; appName := None |}.
End Body.

Record Request := { method : string; body : string }.

(** The JSON object of a response: [result] and, for the reader, the totals. *)
Module Data.
Record t := { result : string; counter : option Z; numUsers : option Z }.
Definition message (s : string) : t := {| result := s; counter := None; numUsers := None |}.
End Data.

Record Response := { status : Z; json : Data.t }.

(** What [postToGAS] hands to [fetch]: the object it serialises is the body's
    own fields followed by [from]. *)
Record FetchCall := {
  url : string;
  fetch_method : string;
  payload : Body.t;
  from : string
}.

(** Error objects that can be thrown and caught. *)
Inductive thrown :=
| SyntaxError
| TypeError
| FetchError
| StoreError (o : StoreOp).

(** How a handler ends: it returns, or a string is thrown out of it. *)
Inductive Completion :=
| Returned
| Thrown (s : string).

(** ** The environment of a run *)

Record Env := {
  (** [JSON.parse]: [None] is a syntax error, [Some None] the value null. *)
  JSON_parse : string -> option (option Body.t);
  (** Does the store reject the operation issued at this position? *)
  rejects : nat -> StoreOp -> bool;
  (** The wall clock in epoch milliseconds, by position in the run. *)
  clock : nat -> Z;
  (** The local zone: offset from UTC in minutes at an instant. *)
  local_zone : Z -> Z;
  (** [process.env.GAS_END_POINT]. *)
  GAS_END_POINT : option string;
  (** Does [fetch] reject at this position? *)
  fetch_rejects : nat -> bool;
  (** [JSON.stringify] of an error of the store client. *)
  store_error_json : string
}.

(** ** The world a handler runs in *)

Record World := {
  db : Store.t;
  (** number of store operations issued so far *)
  tick : nat;
  console : list string;
  sent : list Response;
  fetched : list FetchCall;
  (** rejections of promises nobody awaited *)
  unhandled : list thrown
}.

Definition initial (d : Store.t) : World :=
  {| db := d; tick := O; console := []; sent := []; fetched := []; unhandled := [] |}.

Inductive result (A : Type) :=
| Ok (a : A)
| Err (e : thrown).
Arguments Ok {A} a.
Arguments Err {A} e.

Definition M (A : Type) : Type := World -> result A * World.

#[global] Instance M_ret : MRet M := fun A a w => (Ok a, w).
#[global] Instance M_bind : MBind M := fun A B f m w =>
  match m w with
  | (Ok a, w') => f a w'
  | (Err e, w') => (Err e, w')
  end.

Definition throw {A} (e : thrown) : M A := fun w => (Err e, w).

(** [try { m } catch (e) { h e }]. *)
Definition try_catch {A} (m : M A) (h : thrown -> M A) : M A := fun w =>
  match m w with
  | (Ok a, w') => (Ok a, w')
  | (Err e, w') => h e w'
  end.

(** The four ways a handler is seen from outside the store. *)
Definition log (msg : string) (w : World) : World :=
  {| db := db w; tick := tick w; console := console w ++ [msg]; sent := sent w;
     fetched := fetched w; unhandled := unhandled w |}.

Definition respond (r : Response) (w : World) : World :=
  {| db := db w; tick := tick w; console := console w; sent := sent w ++ [r];
     fetched := fetched w; unhandled := unhandled w |}.

Definition called (c : FetchCall) (w : World) : World :=
  {| db := db w; tick := tick w; console := console w; sent := sent w;
     fetched := fetched w ++ [c]; unhandled := unhandled w |}.

Definition orphan (e : thrown) (w : World) : World :=
  {| db := db w; tick := tick w; console := console w; sent := sent w;
     fetched := fetched w; unhandled := unhandled w ++ [e] |}.

(** A call to an async function whose promise is dropped: the call returns
    at once and never throws; a rejection stays unhandled. *)
Definition floating (m : M unit) : M unit := fun w =>
  match m w with
  | (Ok _, w') => (Ok tt, w')
  | (Err e, w') => (Ok tt, orphan e w')
  end.

Definition console_error (msg : string) : M unit := fun w => (Ok tt, log msg w).

Definition console_log (msg : string) : M unit := console_error msg.

(** [res.status(code).json(data)]. *)
Definition res_status_json (code : Z) (data : Data.t) : M unit := fun w =>
  (Ok tt, respond {| status := code; json := data |} w).

(** ** The store client: [ref], [get], [set], [update] *)

(** A typed reference: its path, and how it reads and writes the tree. A
    snapshot [exists()] exactly when [read] finds a value. *)
Record Ref (V : Type) := {
  path : string;
  read : Store.t -> option V;
  write : V -> Store.t -> Store.t
}.
Arguments path {V} r.
Arguments read {V} r d.
Arguments write {V} r v d.

Module Refs.

Definition users (hostname : string) : Ref User.t :=
  {| path := "kintone/users/" ++ hostname;
     read := fun d => Store.users d !! hostname;
     write := fun v => Store.with_users (insert hostname v) |}.

Definition counter (hostname : string) : Ref Z :=
  {| path := "kintone/counter/" ++ hostname;
     read := fun d => Store.counter d !! hostname;
     write := fun v => Store.with_counter (insert hostname v) |}.

Definition installDate (hostname : string) : Ref string :=
  {| path := "kintone/installDate/" ++ hostname;
     read := fun d => Store.installDate d !! hostname;
     write := fun v => Store.with_installDate (insert hostname v) |}.

Definition lastModified (hostname : string) : Ref string :=
  {| path := "kintone/lastModified/" ++ hostname;
     read := fun d => Store.lastModified d !! hostname;
     write := fun v => Store.with_lastModified (insert hostname v) |}.

Definition summary (isoDate : string) : Ref Summary.t :=
  {| path := "kintone/summary/" ++ isoDate;
     read := fun d => Store.summary d !! isoDate;
     write := fun v => Store.with_summary (insert isoDate v) |}.

(** The whole counter collection; a collection with no child does not
    exist. *)
Definition counters : Ref (gmap string Z) :=
  {| path := "kintone/counter";
     read := fun d => if decide (Store.counter d = ∅) then None else Some (Store.counter d);
     write := fun v => Store.with_counter (fun _ => v) |}.

End Refs.

Definition set_db (d : Store.t) (w : World) : World :=
  {| db := d; tick := S (tick w); console := console w; sent := sent w;
     fetched := fetched w; unhandled := unhandled w |}.

(** [Set] semantics of [[...new Set(l)]]: the distinct elements of [l], each
    at its first place. *)
Definition Set_add (acc : list string) (x : string) : list string :=
  if bool_decide (x ∈ acc) then acc else (acc ++ [x])%list.

Definition Set_spread (l : list string) : list string := fold_left Set_add l [].

(** [l || []] for an optional array. *)
Definition or_empty (l : option (list string)) : list string :=
  match l with
  | Some l => l
  | None => []
  end.

(** [Object.values] of the counter collection. *)
Definition Object_values (data : gmap string Z) : list Z := (map_to_list data).*2.

Section Handlers.

Context (env : Env).

(** One round trip to the store. *)
Definition store_op {A} (o : StoreOp) (f : Store.t -> A * Store.t) : M A := fun w =>
  if rejects env (tick w) o then (Err (StoreError o), set_db (db w) w)
  else let '(a, d) := f (db w) in (Ok a, set_db d w).

Definition get {V} (r : Ref V) : M (option V) :=
  store_op (OpGet (path r)) (fun d => (read r d, d)).

Definition set {V} (r : Ref V) (v : V) : M unit :=
  store_op (OpSet (path r)) (fun d => (tt, write r v d)).

(** [update(reference, { pluginNames })]: a shallow merge into the record. *)
Definition update_pluginNames (hostname : string) (l : list string) : M unit :=
  store_op (OpUpdate (path (Refs.users hostname)))
    (fun d => (tt, Store.with_users
                     (partial_alter
                        (fun o => Some {| User.name := o ≫= User.name;
                                          User.pluginNames := l |}) hostname) d)).

(** [DateTime.local()]. *)
Definition DateTime_local : M Luxon.DateTime := fun w =>
  (Ok {| Luxon.ts := clock env (tick w); Luxon.zone := local_zone env |}, w).

(** *** The recorder: [user.ts] *)

Definition updateUser (hostname : string) (body : Body.t) : M unit :=
  let reference := Refs.users hostname in
  snapshot ← get reference;
  match snapshot with
  | None =>
      set reference {| User.name := Some EmptyString;
                       User.pluginNames := or_empty (Body.pluginNames body) |}
  | Some data =>
      let pluginNames := or_empty (Body.pluginNames body) in
      let registered := User.pluginNames data in
      let noChanges := forallb (fun plugin => bool_decide (plugin ∈ registered)) pluginNames in
      if negb noChanges
      then update_pluginNames hostname (Set_spread (pluginNames ++ registered))
      else mret tt
  end.

Definition updateCounter (hostname : string) : M unit :=
  let counterRef := Refs.counter hostname in
  counterSnapshot ← get counterRef;
  match counterSnapshot with
  | Some val => set counterRef (val + 1)
  | None => set counterRef 1
  end.

Definition updateInstallDate (hostname : string) (now : Luxon.DateTime) : M unit :=
  let installDateRef := Refs.installDate hostname in
  installDateSnapshot ← get installDateRef;
  match installDateSnapshot with
  | None => set installDateRef (Luxon.toISODate now)
  | Some _ => mret tt
  end.

(** Reading a property of the parsed body: a [TypeError] on null. *)
Definition property_access (body : option Body.t) : M Body.t :=
  match body with
  | Some b => mret b
  | None => throw TypeError
  end.

(** The two [replace] calls: a [TypeError] when the value has no such
    method. *)
Definition formattedHostname_of (hostname : option JSON) : M string :=
  match HostId.hostId hostname with
  | Some h => mret h
  | None => throw TypeError
  end.

Definition updateRtdb (body : option Body.t) : M unit :=
  b ← property_access body;
  formattedHostname ← formattedHostname_of (Body.hostname b);
  now ← DateTime_local;
  try_catch (updateUser formattedHostname b)
    (fun _ => console_error "ユーザー情報の更新に失敗しました");;
  try_catch (updateCounter formattedHostname)
    (fun _ => console_error "カウンターの更新に失敗しました");;
  try_catch (updateInstallDate formattedHostname now)
    (fun _ => console_error "インストール日付の更新に失敗しました");;
  try_catch (set (Refs.lastModified formattedHostname) (Luxon.toISODate now))
    (fun _ => console_error "更新日付の更新に失敗しました").

Definition fetch (call : FetchCall) : M unit := fun w =>
  if fetch_rejects env (tick w) then (Err FetchError, called call w)
  else (Ok tt, called call w).

(** [{ ...body, from: 'ribbit-next-app' }]: spreading null adds nothing. *)
Definition postToGAS (body : option Body.t) : M unit :=
  match GAS_END_POINT env with
  | None | Some EmptyString =>
      console_log "GAS WebアプリケーションのURLが登録されていません"
  | Some endpoint =>
      fetch {| url := endpoint; fetch_method := "POST";
               payload := default Body.empty body; from := "ribbit-next-app" |}
  end.

Definition updateSummary : M unit :=
  now0 ← DateTime_local;
  let now := Luxon.plus_hours now0 9 in
  let summaryRef := Refs.summary (Luxon.toISODate now) in
  summarySnapshot ← get summaryRef;
  match summarySnapshot with
  | Some _ => mret tt
  | None =>
      counterSnapshot ← get Refs.counters;
      match counterSnapshot with
      | None => console_error "カウンターの取得に失敗しました"
      | Some data =>
          let counters := Object_values data in
          let sum := fold_left Z.add counters 0 in
          let unixTime := Luxon.toUnixInteger now in
          set summaryRef {| Summary.unixTime := unixTime;
                            Summary.numUsers := Z.of_nat (length counters);
                            Summary.counter := sum |}
      end
  end.

(** [JSON.parse(req.body)]. *)
Definition parse_body (req : Request) : M (option Body.t) :=
  match JSON_parse env (body req) with
  | Some b => mret b
  | None => throw SyntaxError
  end.

(** [JSON.stringify(e)] of a caught error: the built-in errors have no
    enumerable property of their own. *)
Definition JSON_stringify (e : thrown) : string :=
  match e with
  | StoreError _ => store_error_json env
  | _ => "{}"
  end.

(** The body of the outer [try] of the default export. *)
Definition recorder_try (req : Request) : M unit :=
  if String.eqb (method req) "POST" then
    body ← parse_body req;
    causedError ← try_catch (updateRtdb body;; mret false)
                    (fun error =>
                       console_error "realtime database更新時にエラーが発生しました";;
                       mret true);
    try_catch (floating updateSummary)
      (fun _ => console_error "集計情報をDBに登録する際にエラーが発生しました");;
    if negb causedError
    then res_status_json 200 (Data.message "データベースへ追加しました")
    else
      postToGAS body;;
      res_status_json 500 (Data.message "予期せぬエラーが発生しました。")
  else mret tt.

(** The default export of [user.ts]. Its [catch] answers 500 and throws a
    string, which leaves the handler. *)
Definition recorder (req : Request) (w : World) : Completion * World :=
  match recorder_try req w with
  | (Ok _, w') => (Returned, w')
  | (Err e, w') =>
      match res_status_json 500
              (Data.message ("予期せぬエラーが発生しました。" ++ JSON_stringify e)) w' with
      | (_, w'') => (Thrown "API実行時にエラーが発生しました", w'')
      end
  end.

(** *** The reader: the counter route *)

(** [Object.values(snapshot.val())]: a [TypeError] when the value is null. *)
Definition values_of (snapshot : option (gmap string Z)) : M (list Z) :=
  match snapshot with
  | Some data => mret (Object_values data)
  | None => throw TypeError
  end.

Definition getResponseFromRtdb : M Data.t :=
  snapshot ← get Refs.counters;
  counters ← values_of snapshot;
  let counter := fold_left Z.add counters 0 in
  try_catch
    (now ← DateTime_local;
     let summaryRef := Refs.summary (Luxon.toISODate now) in
     summarySnapshot ← get summaryRef;
     match summarySnapshot with
     | None =>
         let unixTime := Luxon.toUnixInteger now in
         set summaryRef {| Summary.unixTime := unixTime;
                           Summary.numUsers := Z.of_nat (length counters);
                           Summary.counter := counter |}
     | Some _ => mret tt
     end)
    (fun _ => console_error "集計情報をDBに登録する際にエラーが発生しました");;
  mret {| Data.result := "取得完了";
          Data.counter := Some counter;
          Data.numUsers := Some (Z.of_nat (length counters)) |}.

Definition reader_try (req : Request) : M unit :=
  if negb (String.eqb (method req) "GET") then
    res_status_json 400 (Data.message "パラメータが不正です")
  else
    responseData ← getResponseFromRtdb;
    res_status_json 200 responseData.

Definition reader (req : Request) (w : World) : Completion * World :=
  match reader_try req w with
  | (Ok _, w') => (Returned, w')
  | (Err e, w') =>
      match res_status_json 500
              (Data.message ("予期せぬエラーが発生しました。" ++ JSON_stringify e)) w' with
      | (_, w'') => (Returned, w'')
      end
  end.

(** *** Runs *)

Inductive Call :=
| ToRecorder (req : Request)
| ToReader (req : Request).

Definition call (c : Call) (w : World) : Completion * World :=
  match c with
  | ToRecorder req => recorder req w
  | ToReader req => reader req w
  end.


End Handlers.

(** ** Vocabulary of the statements *)

(** The store rejects nothing. *)
Definition reliable (env : Env) : Prop := ∀ n o, rejects env n o = false.

(** The instant the clock shows at position [n] of the run, in local time. *)
Definition local_at (env : Env) (n : nat) : Luxon.DateTime :=
  {| Luxon.ts := clock env n; Luxon.zone := local_zone env |}.

(** A POST whose body parses to an object. *)
Definition posts (env : Env) (req : Request) (b : Body.t) : Prop :=
  method req = "POST" ∧ JSON_parse env (body req) = Some (Some b).


(** A recorder request of host [h] that carries the plugin names [P]. *)
Definition carries (env : Env) (h : string) (req : Request) (P : list string) : Prop :=
  ∃ b, posts env req b ∧ HostId.hostId (Body.hostname b) = Some h
       ∧ or_empty (Body.pluginNames b) = P.

(** The sum of all counters of the collection. *)
Definition total (m : gmap string Z) : Z := map_fold (fun _ v acc => acc + v) 0 m.

(** The fallback endpoint, when one is configured. *)
Definition fallback_calls (env : Env) (body : option Body.t) : list FetchCall :=
  match GAS_END_POINT env with
  | None | Some EmptyString => []
  | Some endpoint =>
      [{| url := endpoint; fetch_method := "POST";
          payload := default Body.empty body; from := "ribbit-next-app" |}]
  end.

(** *** Frames *)

(** [m] takes every world to one related to it by [R]. *)
Definition respects {A} (R : World → World → Prop) (m : M A) : Prop :=
  ∀ w r w', m w = (r, w') → R w w'.

(** Nothing but the store and the position moved. *)
Definition quiet (w w' : World) : Prop :=
  (tick w ≤ tick w')%nat ∧ console w' = console w ∧ sent w' = sent w
  ∧ fetched w' = fetched w ∧ unhandled w' = unhandled w.

(** Nothing was answered and nothing was fetched. *)
Definition silent (w w' : World) : Prop :=
  sent w' = sent w ∧ fetched w' = fetched w.

(** No install date that is set changes. *)
Definition keeps_installDate (w w' : World) : Prop :=
  ∀ h v, Store.installDate (db w) !! h = Some v →
         Store.installDate (db w') !! h = Some v.

(** No registered plugin name of any host is lost. *)
Definition keeps_plugins (w w' : World) : Prop :=
  ∀ h u x, Store.users (db w) !! h = Some u → x ∈ User.pluginNames u →
           ∃ u', Store.users (db w') !! h = Some u' ∧ x ∈ User.pluginNames u'.

(** Every summary entry is as before, or was absent and is now the one
    stamped with the instant [stamp n] of some position [n] in between. *)
Definition writes_summary (stamp : nat → Luxon.DateTime) (w w' : World) : Prop :=
  (tick w ≤ tick w')%nat
  ∧ ∀ k, Store.summary (db w') !! k = Store.summary (db w) !! k
         ∨ Store.summary (db w) !! k = None
           ∧ ∃ n s, (tick w ≤ n < tick w')%nat
                    ∧ k = Luxon.toISODate (stamp n)
                    ∧ Store.summary (db w') !! k = Some s
                    ∧ Summary.unixTime s = Luxon.toUnixInteger (stamp n).

(** The instant each route stamps its summary with. *)
Definition recorder_stamp (env : Env) (n : nat) : Luxon.DateTime :=
  Luxon.plus_hours (local_at env n) 9.
Definition reader_stamp (env : Env) (n : nat) : Luxon.DateTime := local_at env n.

Definition stamp_of (env : Env) (c : Call) : nat → Luxon.DateTime :=
  match c with
  | ToRecorder _ => recorder_stamp env
  | ToReader _ => reader_stamp env
  end.

(** The three together: what every computation of the two routes does to
    the store, whatever the store rejects. *)
Definition lawful (stamp : nat → Luxon.DateTime) (w w' : World) : Prop :=
  writes_summary stamp w w' ∧ keeps_installDate w w' ∧ keeps_plugins w w'.

(** *** What a call that meets no rejection makes of each collection *)

Definition users_after (h : string) (P : list string) (m : gmap string User.t)
  : gmap string User.t :=
  match m !! h with
  | None => <[h := {| User.name := Some EmptyString; User.pluginNames := P |}]> m
  | Some u =>
      if forallb (fun plugin => bool_decide (plugin ∈ User.pluginNames u)) P then m
      else <[h := {| User.name := User.name u;
                     User.pluginNames := Set_spread (P ++ User.pluginNames u) |}]> m
  end.

Definition counter_after (h : string) (m : gmap string Z) : gmap string Z :=
  <[h := match m !! h with Some v => v + 1 | None => 1 end]> m.

Definition installDate_after (h today : string) (m : gmap string string)
  : gmap string string :=
  match m !! h with
  | None => <[h := today]> m
  | Some _ => m
  end.

Definition summary_after (now : Luxon.DateTime) (counters : gmap string Z)
    (m : gmap string Summary.t) : gmap string Summary.t :=
  match m !! Luxon.toISODate now with
  | Some _ => m
  | None =>
      if decide (counters = ∅) then m
      else <[Luxon.toISODate now :=
               {| Summary.unixTime := Luxon.toUnixInteger now;
                  Summary.numUsers := Z.of_nat (size counters);
                  Summary.counter := total counters |}]> m
  end.

(** The store after a recorder call of host [h] with plugin names [P] that
    met no rejection: [n0] is the position at which the call read the clock
    for its dates, [n] the one at which its summary step did. *)
Definition recorded (env : Env) (h : string) (P : list string) (n0 n : nat)
    (d : Store.t) : Store.t :=
  let today := Luxon.toISODate (local_at env n0) in
  {| Store.users := users_after h P (Store.users d);
     Store.counter := counter_after h (Store.counter d);
     Store.installDate := installDate_after h today (Store.installDate d);
     Store.lastModified := <[h := today]> (Store.lastModified d);
     Store.summary := summary_after (recorder_stamp env n)
                        (counter_after h (Store.counter d)) (Store.summary d) |}.

(** ** Sample requests and environments *)

Module Sample.

Definition quoted (s : string) : string :=
  String (ascii_of_nat 34) (s ++ String (ascii_of_nat 34) EmptyString).

Definition with_plugins (host : JSON) (plugins : list string) : Body.t :=
  {| Body.hostname := Some host; Body.pluginNames := Some plugins;
     Body.page := None; Body.email := None; Body.appName := None |}.

(** [{"hostname":"foo.cybozu.com","pluginNames":["a","b"]}] *)
Definition text_foo : string :=
  "{" ++ quoted "hostname" ++ ":" ++ quoted "foo.cybozu.com" ++ ","
      ++ quoted "pluginNames" ++ ":[" ++ quoted "a" ++ "," ++ quoted "b" ++ "]}".

(** [{"hostname":"foo.kintone.com","pluginNames":["b","c"]}] *)
Definition text_foo_again : string :=
  "{" ++ quoted "hostname" ++ ":" ++ quoted "foo.kintone.com" ++ ","
      ++ quoted "pluginNames" ++ ":[" ++ quoted "b" ++ "," ++ quoted "c" ++ "]}".

(** [{"hostname":"foo.cybozu.com","pluginNames":["a","a"]}] *)
Definition text_twice : string :=
  "{" ++ quoted "hostname" ++ ":" ++ quoted "foo.cybozu.com" ++ ","
      ++ quoted "pluginNames" ++ ":[" ++ quoted "a" ++ "," ++ quoted "a" ++ "]}".

(** [{"hostname":5,"pluginNames":["a"]}] *)
Definition text_number : string :=
  "{" ++ quoted "hostname" ++ ":5," ++ quoted "pluginNames" ++ ":[" ++ quoted "a" ++ "]}".

(** [JSON.parse] on the sample texts; any other text is taken as
    malformed. *)
Definition parse (s : string) : option (option Body.t) :=
  if String.eqb s text_foo
  then Some (Some (with_plugins (JString "foo.cybozu.com") ["a"; "b"]))
  else if String.eqb s text_foo_again
  then Some (Some (with_plugins (JString "foo.kintone.com") ["b"; "c"]))
  else if String.eqb s text_twice
  then Some (Some (with_plugins (JString "foo.cybozu.com") ["a"; "a"]))
  else if String.eqb s text_number
  then Some (Some (with_plugins (JNumber 5) ["a"]))
  else if String.eqb s "null" then Some None
  else None.

Definition post (text : string) : Request := {| method := "POST"; body := text |}.
Definition get_counter : Request := {| method := "GET"; body := EmptyString |}.

(** A store that rejects nothing, a server on UTC, the clock at
    1970-01-01T20:00:00Z and one millisecond more per round trip. *)
Definition env : Env :=
  {| JSON_parse := parse;
     rejects := fun _ _ => false;
     clock := fun n => 72000000 + Z.of_nat n;
     local_zone := fun _ => 0;
     GAS_END_POINT := Some "https://script.example/exec";
     fetch_rejects := fun _ => false;
     store_error_json := "{}" |}.

(** The same with a store that rejects everything. *)
Definition env_down : Env :=
  {| JSON_parse := parse;
     rejects := fun _ _ => true;
     clock := clock env;
     local_zone := local_zone env;
     GAS_END_POINT := GAS_END_POINT env;
     fetch_rejects := fetch_rejects env;
     store_error_json := store_error_json env |}.

(** The same with a store that rejects the reads below [kintone/summary/]. *)
Definition env_summary_down : Env :=
  {| JSON_parse := parse;
     rejects := fun _ o =>
       match o with
       | OpGet path => bool_decide (is_Some (Str.strip_prefix "kintone/summary/" path))
       | _ => false
       end;
     clock := clock env;
     local_zone := local_zone env;
     GAS_END_POINT := GAS_END_POINT env;
     fetch_rejects := fetch_rejects env;
     store_error_json := store_error_json env |}.

(** The clock stopped at 1970-01-01T20:00:00Z. *)
Definition env_stopped : Env :=
  {| JSON_parse := parse;
     rejects := fun _ _ => false;
     clock := fun _ => 72000000;
     local_zone := local_zone env;
     GAS_END_POINT := GAS_END_POINT env;
     fetch_rejects := fetch_rejects env;
     store_error_json := store_error_json env |}.


(** A store in which host [bar] has been counted three times. *)
Definition one_host : Store.t := Store.with_counter (insert "bar" 3) Store.empty.

End Sample.

(** ** The two updates the recorder no longer calls

    [updateEmails] and [updateAppNames] ([user.ts], lines 122-164) are still
    defined; their calls in [updateRtdb] are commented out. They keep one
    list of strings per host below [kintone/email/] and [kintone/appName/],
    two collections of their own, which are modelled here on their own. *)

Module Lists.
Record t := {
  email : gmap string (list string);
  appName : gmap string (list string)
}.
Definition empty : t := {| email := ∅; appName := ∅ |}.
End Lists.

Module Contacts.

(** The two collections and the number of store operations issued. *)
Record State := { lists : Lists.t; position : nat }.

Definition C (A : Type) : Type := State → result A * State.


Definition moved (l : Lists.t) (s : State) : State :=
  {| lists := l; position := S (position s) |}.

Section Updates.

Context (env : Env).

(** One round trip to the store, rejected or not by the same oracle. *)
Definition store_op {A} (o : StoreOp) (f : Lists.t → A * Lists.t) : C A := fun s =>
  if rejects env (position s) o then (Err (StoreError o), moved (lists s) s)
  else let '(a, l) := f (lists s) in (Ok a, moved l s).







End Updates.


End Contacts.

(** ** More sample environments *)

Module Outage.



End Outage.

(** ** More vocabulary *)

(** The collections of the tree. *)
Inductive Collection :=
| Users
| Counter
| InstallDate
| LastModified
| DailySummary.

(** Every collection but [k] is as before. *)
Definition same_but (k : Collection) (w w' : World) : Prop :=
  (k ≠ Users → Store.users (db w') = Store.users (db w))
  ∧ (k ≠ Counter → Store.counter (db w') = Store.counter (db w))
  ∧ (k ≠ InstallDate → Store.installDate (db w') = Store.installDate (db w))
  ∧ (k ≠ LastModified → Store.lastModified (db w') = Store.lastModified (db w))
  ∧ (k ≠ DailySummary → Store.summary (db w') = Store.summary (db w)).

(** The four entries of host [h] are as before. *)
Definition host_kept (h : string) (w w' : World) : Prop :=
  Store.users (db w') !! h = Store.users (db w) !! h
  ∧ Store.counter (db w') !! h = Store.counter (db w) !! h
  ∧ Store.installDate (db w') !! h = Store.installDate (db w) !! h
  ∧ Store.lastModified (db w') !! h = Store.lastModified (db w) !! h.

(** No counter goes away, and none goes down. *)
Definition counters_grow (w w' : World) : Prop :=
  ∀ h v, Store.counter (db w) !! h = Some v →
         ∃ v', Store.counter (db w') !! h = Some v' ∧ v ≤ v'.

(** No record goes away, and none changes its [name]. *)
Definition names_kept (w w' : World) : Prop :=
  ∀ h u, Store.users (db w) !! h = Some u →
         ∃ u', Store.users (db w') !! h = Some u' ∧ User.name u' = User.name u.

(** At most [k] store operations were issued. *)
Definition within (k : nat) {A} (m : M A) : Prop :=
  ∀ w r w', m w = (r, w') → (tick w ≤ tick w' ≤ tick w + k)%nat.


(** * Properties *)

(** ** Host ids *)

Module HostIdFacts.

Import Str HostId.

Lemma strip_prefix_Some p s r : strip_prefix p s = Some r → s = p ++ r.
Proof.
  revert s. induction p as [|a p IH]; intros s H; simpl in *.
  - by inversion H.
  - destruct s as [|b s]; [done|].
    destruct (Ascii.eqb a b) eqn:E; [|done].
    apply Ascii.eqb_eq in E. subst b. change (String a s = String a (p ++ r)).
    f_equal. by apply IH.
Qed.

Lemma match_domain_Some s r :
  match_domain s = Some r → s = ".cybozu.com" ++ r ∨ s = ".kintone.com" ++ r.
Proof.
  unfold match_domain. intros H.
  destruct (strip_prefix "." s) as [s1|] eqn:E1; [|done].
  apply strip_prefix_Some in E1. subst s.
  destruct (strip_prefix "cybozu" s1) as [s2|] eqn:E2.
  - destruct (strip_prefix ".com" s2) as [r'|] eqn:E3.
    + inversion H; subst r'. left.
      apply strip_prefix_Some in E2, E3. by subst.
    + destruct (strip_prefix "kintone" s1) as [s3|] eqn:E4; [|done].
      apply strip_prefix_Some in E2, E4. subst s1. done.
  - destruct (strip_prefix "kintone" s1) as [s3|] eqn:E4; [|done].
    right. apply strip_prefix_Some in E4, H. by subst.
Qed.

(** A match at the head of [s] is one of the four suffixes. *)
Lemma match_here_Some s r :
  match_here s = Some r →
  s = ".s.cybozu.com" ++ r ∨ s = ".s.kintone.com" ++ r
  ∨ s = ".cybozu.com" ++ r ∨ s = ".kintone.com" ++ r.
Proof.
  unfold match_here. intros H.
  destruct (strip_prefix ".s" s) as [s1|] eqn:E1.
  - destruct (match_domain s1) as [r'|] eqn:E2.
    + inversion H; subst r'. apply strip_prefix_Some in E1.
      apply match_domain_Some in E2 as [->| ->]; subst s; auto.
    + apply match_domain_Some in H as [->| ->]; auto.
  - apply match_domain_Some in H as [->| ->]; auto.
Qed.

Lemma strip_suffix_step q c s :
  String c s ≠ q →
  strip_suffix q (String c s) = option_map (String c) (strip_suffix q s).
Proof.
  intros H.
  change (strip_suffix q (String c s))
    with (if String.eqb (String c s) q then Some EmptyString
          else option_map (String c) (strip_suffix q s)).
  by destruct (String.eqb_spec (String c s) q).
Qed.

Lemma strip_platform_suffix_step c s :
  match_here (String c s) = None →
  strip_platform_suffix (String c s) = String c (strip_platform_suffix s).
Proof.
  intros H. unfold strip_platform_suffix.
  rewrite !strip_suffix_step by (intros E; rewrite E in H; discriminate H).
  repeat (destruct (strip_suffix _ s); simpl; [done|]). done.
Qed.

(** Code and wording agree on the names that carry the pattern nowhere but
    at their end. *)
Lemma replace_is_strip s :
  pattern_only_at_end s = true →
  replace_suffix_pattern s = strip_platform_suffix s.
Proof.
  induction s as [|c s IH]; [done|].
  unfold pattern_only_at_end. cbn [tails forallb].
  intros [Hhead Htail]%andb_prop.
  cbn [replace_suffix_pattern].
  destruct (match_here (String c s)) as [r|] eqn:E.
  - apply String.eqb_eq in Hhead. subst r.
    apply match_here_Some in E as [E|[E|[E|E]]]; by rewrite E.
  - rewrite strip_platform_suffix_step by done. f_equal. by apply IH.
Qed.

(** The host id is missing exactly for a truthy value that is no string. *)
Lemma hostId_None v :
  hostId v = None ↔ ∃ j, v = Some j ∧ truthy j = true ∧ ∀ s, j ≠ JString s.
Proof.
  unfold hostId, or_undefined. split.
  - destruct v as [j|]; [|done]. destruct (truthy j) eqn:T; [|done].
    destruct j; try done; intros _; eexists; by split_and!.
  - intros (j & -> & -> & Hj). destruct j; try done. by destruct (Hj s).
Qed.

End HostIdFacts.

(** C4, as the code has it: on every hostname that carries the pattern
    (an optional [.s], then [.cybozu.com] or [.kintone.com]) nowhere but at
    its very end, the host id is the name with its platform suffix stripped
    and each remaining dot replaced by [_dot_]; [foo.cybozu.com] and
    [foo.s.kintone.com] give [foo], [a.b.cybozu.com] gives [a_dot_b], and an
    absent or empty hostname gives [___undefined]. *)
Theorem hostId_strips_trailing_suffix :
  (∀ s, HostId.pattern_only_at_end s = true →
        HostId.hostId (Some (JString s)) = Some (HostId.hostId_by_suffix (Some s)))
  ∧ HostId.hostId (Some (JString "foo.cybozu.com")) = Some "foo"
  ∧ HostId.hostId (Some (JString "foo.s.kintone.com")) = Some "foo"
  ∧ HostId.hostId (Some (JString "a.b.cybozu.com")) = Some "a_dot_b"
  ∧ HostId.hostId None = Some "___undefined"
  ∧ HostId.hostId (Some (JString EmptyString)) = Some "___undefined".
Proof.
  split; [|by repeat split].
  intros s H. destruct s as [|c s]; [done|].
  unfold HostId.hostId, HostId.or_undefined, HostId.formatHostname. cbn [truthy String.eqb negb].
  cbn [HostId.hostId_by_suffix]. f_equal. f_equal.
  by apply HostIdFacts.replace_is_strip.
Qed.

Lemma hostId_strips_trailing_suffix_witness :
  HostId.pattern_only_at_end "dev.s.cybozu.com" = true
  ∧ HostId.hostId (Some (JString "dev.s.cybozu.com"))
    = Some (HostId.hostId_by_suffix (Some "dev.s.cybozu.com")).
Proof.
  split; [reflexivity|].
  apply (proj1 hostId_strips_trailing_suffix "dev.s.cybozu.com").
  reflexivity.
Defined.

(** C4, as stated, fails where the pattern stands inside the name: the code
    deletes it there, and a suffix strip leaves it. *)
Lemma hostId_is_not_a_suffix_strip :
  HostId.hostId (Some (JString "a.cybozu.com.b")) = Some "a_dot_b"
  ∧ HostId.hostId_by_suffix (Some "a.cybozu.com.b") = "a_dot_cybozu_dot_com_dot_b"
  ∧ HostId.hostId (Some (JString "a.cybozu.com.b"))
    ≠ Some (HostId.hostId_by_suffix (Some "a.cybozu.com.b")).
Proof. by repeat split. Qed.

(** ** Frames

    A relation between the world before and the world after that is
    reflexive, composes, and holds across a log line and an orphaned
    rejection, holds across a whole computation as soon as it holds across
    each of its round trips. *)

Section Frame.

Context (env : Env) (R : World → World → Prop).
Context (R_refl : ∀ w, R w w).
Context (R_trans : ∀ w1 w2 w3, R w1 w2 → R w2 w3 → R w1 w3).
Context (R_log : ∀ msg w, R w (log msg w)).
Context (R_orphan : ∀ e w, R w (orphan e w)).

Lemma respects_ret {A} (a : A) : respects R (mret a).
Proof. intros w r w' [= _ <-]. apply R_refl. Qed.

Lemma respects_throw {A} e : respects R (@throw A e).
Proof. intros w r w' [= _ <-]. apply R_refl. Qed.

Lemma respects_bind {A B} (m : M A) (f : A → M B) :
  respects R m → (∀ a, respects R (f a)) → respects R (m ≫= f).
Proof.
  intros Hm Hf w r w'. unfold mbind, M_bind.
  destruct (m w) as [[a|e] w1] eqn:E.
  - intros H. eapply R_trans; [by eapply Hm | by eapply Hf].
  - intros [= _ <-]. by eapply Hm.
Qed.

Lemma respects_try_catch {A} (m : M A) (h : thrown → M A) :
  respects R m → (∀ e, respects R (h e)) → respects R (try_catch m h).
Proof.
  intros Hm Hh w r w'. unfold try_catch.
  destruct (m w) as [[a|e] w1] eqn:E.
  - intros [= _ <-]. by eapply Hm.
  - intros H. eapply R_trans; [by eapply Hm | by eapply Hh].
Qed.

Lemma respects_floating (m : M unit) : respects R m → respects R (floating m).
Proof.
  intros Hm w r w'. unfold floating.
  destruct (m w) as [[a|e] w1] eqn:E; intros [= _ <-].
  - by eapply Hm.
  - eapply R_trans; [by eapply Hm | apply R_orphan].
Qed.

Lemma respects_console_error msg : respects R (console_error msg).
Proof. intros w r w' [= _ <-]. apply R_log. Qed.

Lemma respects_DateTime_local : respects R (DateTime_local env).
Proof. intros w r w' [= _ <-]. apply R_refl. Qed.

Lemma respects_property_access b : respects R (property_access b).
Proof. destruct b; [apply respects_ret | apply respects_throw]. Qed.

Lemma respects_formattedHostname_of v : respects R (formattedHostname_of v).
Proof.
  unfold formattedHostname_of.
  destruct (HostId.hostId v); [apply respects_ret | apply respects_throw].
Qed.

Lemma respects_parse_body req : respects R (parse_body env req).
Proof.
  unfold parse_body.
  destruct (JSON_parse env (body req)); [apply respects_ret | apply respects_throw].
Qed.

Lemma respects_values_of s : respects R (values_of s).
Proof. destruct s; [apply respects_ret | apply respects_throw]. Qed.

(** A round trip respects [R] when the passing of one position does and the
    write does. *)
Lemma respects_store_op {A} o (f : Store.t → A * Store.t) :
  (∀ w, R w (set_db (db w) w)) →
  (∀ w, R w (set_db (f (db w)).2 w)) →
  respects R (store_op env o f).
Proof.
  intros Hpass Hwrite w r w'. unfold store_op.
  destruct (rejects env (tick w) o).
  - intros [= _ <-]. apply Hpass.
  - specialize (Hwrite w). destruct (f (db w)) as [a d]. by intros [= _ <-].
Qed.

(** What is seen from outside the store. *)
Context (R_respond : ∀ r w, R w (respond r w)).
Context (R_called : ∀ c w, R w (called c w)).

Lemma respects_res_status_json code data : respects R (res_status_json code data).
Proof. intros w r w' [= _ <-]. apply R_respond. Qed.

Lemma respects_fetch c : respects R (fetch env c).
Proof.
  intros w r w'. unfold fetch.
  destruct (fetch_rejects env (tick w)); intros [= _ <-]; apply R_called.
Qed.

Lemma respects_postToGAS b : respects R (postToGAS env b).
Proof.
  unfold postToGAS. destruct (GAS_END_POINT env) as [[|c u]|];
    auto using respects_console_error, respects_fetch.
Qed.

End Frame.

Create HintDb frame.
#[local] Hint Resolve respects_ret respects_throw respects_console_error
  respects_res_status_json respects_fetch respects_postToGAS
  respects_DateTime_local respects_property_access respects_formattedHostname_of
  respects_parse_body respects_values_of : frame.

(** Builds a frame proof along the shape of the computation. *)
Ltac frame_steps :=
  repeat first
    [ solve [eauto with frame]
    | apply respects_bind; [solve [eauto with frame] | | intros ?]
    | apply respects_try_catch; [solve [eauto with frame] | | intros ?]
    | apply respects_floating; [solve [eauto with frame] | solve [eauto with frame] | ] ].

(** The store and the position alone. *)


(** ** [Set] *)

Lemma elem_of_fold_Set_add x l acc :
  x ∈ fold_left Set_add l acc ↔ x ∈ acc ∨ x ∈ l.
Proof.
  revert acc. induction l as [|y l IH]; intros acc; simpl.
  - rewrite elem_of_nil. tauto.
  - rewrite IH. unfold Set_add. rewrite elem_of_cons. case_bool_decide.
    + split; [tauto|]. intros [?|[->|?]]; auto.
    + rewrite elem_of_app, list_elem_of_singleton. tauto.
Qed.


Lemma elem_of_Set_spread x l : x ∈ Set_spread l ↔ x ∈ l.
Proof.
  unfold Set_spread. rewrite elem_of_fold_Set_add, elem_of_nil. tauto.
Qed.


(** ** What both routes do to the store under any rejections *)

Section Lawful.

Context (env : Env) (stamp : nat → Luxon.DateTime).

Lemma writes_summary_untouched w w' :
  (tick w ≤ tick w')%nat →
  Store.summary (db w') = Store.summary (db w) → writes_summary stamp w w'.
Proof. intros Ht H. split; [done|]. intros k. left. by rewrite H. Qed.

Lemma writes_summary_insert w w' n s :
  (tick w ≤ n < tick w')%nat →
  Store.summary (db w) !! Luxon.toISODate (stamp n) = None →
  Store.summary (db w') = <[Luxon.toISODate (stamp n) := s]> (Store.summary (db w)) →
  Summary.unixTime s = Luxon.toUnixInteger (stamp n) →
  writes_summary stamp w w'.
Proof.
  intros Hn Hnone Hw Hu. split; [lia|]. intros k. rewrite Hw.
  destruct (decide (k = Luxon.toISODate (stamp n))) as [->|Hne].
  - right. split; [done|]. exists n, s. by rewrite lookup_insert_eq.
  - left. by rewrite lookup_insert_ne.
Qed.

Lemma writes_summary_trans w1 w2 w3 :
  writes_summary stamp w1 w2 → writes_summary stamp w2 w3 → writes_summary stamp w1 w3.
Proof.
  intros [Ht1 H1] [Ht2 H2]. split; [lia|]. intros k.
  destruct (H1 k) as [E1|(N1 & n & s & Hn & Hk & Hs & Hu)],
           (H2 k) as [E2|(N2 & n' & s' & Hn' & Hk' & Hs' & Hu')].
  - left. congruence.
  - right. split; [congruence|]. exists n', s'. repeat split; auto; lia.
  - right. split; [done|]. exists n, s. repeat split; auto; try lia. congruence.
  - congruence.
Qed.

Lemma keeps_installDate_untouched w w' :
  Store.installDate (db w') = Store.installDate (db w) → keeps_installDate w w'.
Proof. intros H h v. by rewrite H. Qed.

Lemma keeps_installDate_insert w w' h0 v0 :
  Store.installDate (db w) !! h0 = None →
  Store.installDate (db w') = <[h0 := v0]> (Store.installDate (db w)) →
  keeps_installDate w w'.
Proof.
  intros Hnone Hw h v Hv. rewrite Hw.
  destruct (decide (h0 = h)) as [->|Hne]; [congruence|]. by rewrite lookup_insert_ne.
Qed.

Lemma keeps_plugins_untouched w w' :
  Store.users (db w') = Store.users (db w) → keeps_plugins w w'.
Proof. intros H h u x Hu Hx. rewrite H. eauto. Qed.

Lemma keeps_plugins_insert w w' h0 u0 :
  (∀ u x, Store.users (db w) !! h0 = Some u → x ∈ User.pluginNames u →
          x ∈ User.pluginNames u0) →
  Store.users (db w') = <[h0 := u0]> (Store.users (db w)) →
  keeps_plugins w w'.
Proof.
  intros Hsup Hw h u x Hu Hx. rewrite Hw.
  destruct (decide (h0 = h)) as [->|Hne].
  - exists u0. rewrite lookup_insert_eq. eauto.
  - exists u. by rewrite lookup_insert_ne.
Qed.

Lemma lawful_same w w' : db w = db w' → tick w = tick w' → lawful stamp w w'.
Proof.
  intros Hd Ht. split_and!.
  - apply writes_summary_untouched; [lia | by rewrite Hd].
  - apply keeps_installDate_untouched. by rewrite Hd.
  - apply keeps_plugins_untouched. by rewrite Hd.
Qed.

Lemma lawful_trans w1 w2 w3 : lawful stamp w1 w2 → lawful stamp w2 w3 → lawful stamp w1 w3.
Proof.
  intros (S1 & I1 & P1) (S2 & I2 & P2). split_and!.
  - by eapply writes_summary_trans.
  - intros h v Hv. by apply I2, I1.
  - intros h u x Hu Hx. destruct (P1 h u x Hu Hx) as (u' & Hu' & Hx'). eauto.
Qed.

End Lawful.

Lemma lawful_refl stamp w : lawful stamp w w.
Proof. by apply lawful_same. Qed.
Lemma lawful_log stamp msg w : lawful stamp w (log msg w).
Proof. by apply lawful_same. Qed.
Lemma lawful_orphan stamp e w : lawful stamp w (orphan e w).
Proof. by apply lawful_same. Qed.
Lemma lawful_respond stamp r w : lawful stamp w (respond r w).
Proof. by apply lawful_same. Qed.
Lemma lawful_called stamp c w : lawful stamp w (called c w).
Proof. by apply lawful_same. Qed.

#[local] Hint Resolve lawful_refl lawful_trans lawful_log lawful_orphan
  lawful_respond lawful_called : frame.

(** Opens a small computation into its runs, one per outcome of each round
    trip. *)
Ltac runs :=
  unfold get, set, update_pluginNames, store_op, DateTime_local, console_error,
    mbind, M_bind, mret, M_ret;
  simpl; intros; repeat case_match; simplify_eq/=.

(** Closes a [lawful] goal of a run that left the three collections
    as they were, or wrote one entry that was absent. *)
Ltac untouched :=
  split_and!;
  [ apply writes_summary_untouched; simpl; [lia | done]
  | by apply keeps_installDate_untouched
  | by apply keeps_plugins_untouched ].

(** A shallow merge into a record that is there is a replacement. *)
Lemma merge_is_insert (g : option User.t → User.t) h u (m : gmap string User.t) :
  m !! h = Some u →
  partial_alter (fun o => Some (g o)) h m = <[h := g (Some u)]> m.
Proof.
  intros H. unfold insert, map_insert. apply partial_alter_ext.
  intros x Hx. rewrite H in Hx. by subst x.
Qed.

Section LawfulSteps.

Context (env : Env) (stamp : nat → Luxon.DateTime).

Lemma updateUser_lawful h b : respects (lawful stamp) (updateUser env h b).
Proof.
  intros w r w'. unfold updateUser. runs; try untouched.
  - split_and!;
      [ apply writes_summary_untouched; simpl; [lia | done]
      | by apply keeps_installDate_untouched | ].
    eapply keeps_plugins_insert; [|simpl; by eapply (merge_is_insert _ h)].
    simpl. intros u x ? Hx. simplify_eq.
    apply elem_of_Set_spread, elem_of_app. by right.
  - split_and!;
      [ apply writes_summary_untouched; simpl; [lia | done]
      | by apply keeps_installDate_untouched | ].
    eapply keeps_plugins_insert; [|done]. intros; simplify_eq.
Qed.

Lemma updateCounter_lawful h : respects (lawful stamp) (updateCounter env h).
Proof. intros w r w'. unfold updateCounter. runs; untouched. Qed.

Lemma updateInstallDate_lawful h now :
  respects (lawful stamp) (updateInstallDate env h now).
Proof.
  intros w r w'. unfold updateInstallDate. runs; try untouched.
  split_and!;
    [ apply writes_summary_untouched; simpl; [lia | done]
    | by eapply keeps_installDate_insert
    | by apply keeps_plugins_untouched ].
Qed.

Lemma set_lastModified_lawful h v :
  respects (lawful stamp) (set env (Refs.lastModified h) v).
Proof. intros w r w'. runs; untouched. Qed.

Lemma updateRtdb_lawful b : respects (lawful stamp) (updateRtdb env b).
Proof.
  unfold updateRtdb.
  pose proof updateUser_lawful. pose proof updateCounter_lawful.
  pose proof updateInstallDate_lawful. pose proof set_lastModified_lawful.
  frame_steps.
Qed.

End LawfulSteps.

Lemma updateSummary_lawful env :
  respects (lawful (recorder_stamp env)) (updateSummary env).
Proof.
  intros w r w'. unfold updateSummary. runs; try untouched.
  split_and!;
    [ | by apply keeps_installDate_untouched | by apply keeps_plugins_untouched ].
  eapply (writes_summary_insert _ _ _ (tick w)); simpl; [lia|done|done|done].
Qed.

Lemma getResponseFromRtdb_lawful env :
  respects (lawful (reader_stamp env)) (getResponseFromRtdb env).
Proof.
  intros w r w'. unfold getResponseFromRtdb, values_of, try_catch, throw.
  runs; try untouched.
  split_and!;
    [ | by apply keeps_installDate_untouched | by apply keeps_plugins_untouched ].
  eapply (writes_summary_insert _ _ _ (S (tick w))); simpl; [lia|done|done|done].
Qed.

Lemma recorder_try_lawful env req :
  respects (lawful (recorder_stamp env)) (recorder_try env req).
Proof.
  unfold recorder_try.
  pose proof (updateRtdb_lawful env (recorder_stamp env)).
  pose proof (updateSummary_lawful env).
  destruct (String.eqb (method req) "POST"); [|eauto with frame].
  frame_steps. destruct (negb _); frame_steps.
Qed.

Lemma reader_try_lawful env req :
  respects (lawful (reader_stamp env)) (reader_try env req).
Proof.
  unfold reader_try.
  pose proof (getResponseFromRtdb_lawful env).
  destruct (negb _); frame_steps.
Qed.

(** Every call, answered or failed, is lawful. *)
Lemma call_lawful env c w : lawful (stamp_of env c) w (call env c w).2.
Proof.
  destruct c as [req|req]; simpl.
  - unfold recorder. destruct (recorder_try env req w) as [[a|e] w1] eqn:E; simpl.
    + by eapply recorder_try_lawful.
    + eapply lawful_trans; [by eapply recorder_try_lawful | by apply lawful_same].
  - unfold reader. destruct (reader_try env req w) as [[a|e] w1] eqn:E; simpl.
    + by eapply reader_try_lawful.
    + eapply lawful_trans; [by eapply reader_try_lawful | by apply lawful_same].
Qed.

(** ** Runs that meet no rejection *)

Lemma bind_ok {A B} (m : M A) (f : A → M B) w a w1 :
  m w = (Ok a, w1) → (m ≫= f) w = f a w1.
Proof. intros H. unfold mbind, M_bind. by rewrite H. Qed.

Lemma try_catch_ok {A} (m : M A) h w a w1 :
  m w = (Ok a, w1) → try_catch m h w = (Ok a, w1).
Proof. intros H. unfold try_catch. by rewrite H. Qed.

Lemma quiet_refl w : quiet w w.
Proof. by split_and!. Qed.

Lemma quiet_trans w1 w2 w3 : quiet w1 w2 → quiet w2 w3 → quiet w1 w3.
Proof.
  intros (?&?&?&?&?) (?&?&?&?&?). split_and!; [lia|congruence..].
Qed.

Lemma quiet_set_db w d : quiet w (set_db d w).
Proof. split_and!; simpl; [lia|done..]. Qed.

Lemma length_Object_values (m : gmap string Z) : length (Object_values m) = size m.
Proof. unfold Object_values. by rewrite length_fmap, length_map_to_list. Qed.

Lemma fold_left_add_values (l : list (string * Z)) acc :
  fold_left Z.add l.*2 acc
  = acc + foldr (uncurry (fun (_ : string) v a => a + v)) 0 l.
Proof.
  revert acc. induction l as [|[k v] l IH]; intros acc; simpl; [lia|].
  rewrite IH. lia.
Qed.

Lemma sum_Object_values (m : gmap string Z) :
  fold_left Z.add (Object_values m) 0 = total m.
Proof.
  unfold Object_values, total. by rewrite fold_left_add_values, map_fold_foldr.
Qed.

Section Reliable.

Context (env : Env) (Hrel : reliable env).

Lemma store_op_reliable {A} o (f : Store.t → A * Store.t) w :
  store_op env o f w = (Ok (f (db w)).1, set_db (f (db w)).2 w).
Proof. unfold store_op. rewrite Hrel. by destruct (f (db w)). Qed.

Lemma get_reliable {V} (r : Ref V) w :
  get env r w = (Ok (read r (db w)), set_db (db w) w).
Proof. apply store_op_reliable. Qed.

Lemma set_reliable {V} (r : Ref V) v w :
  set env r v w = (Ok tt, set_db (write r v (db w)) w).
Proof. apply store_op_reliable. Qed.

Lemma updateUser_reliable h b w :
  ∃ w1, updateUser env h b w = (Ok tt, w1) ∧ quiet w w1
        ∧ db w1 = Store.with_users (users_after h (or_empty (Body.pluginNames b))) (db w).
Proof.
  unfold updateUser. erewrite bind_ok by apply get_reliable.
  unfold Store.with_users, users_after. simpl.
  destruct (Store.users (db w) !! h) as [u|] eqn:E.
  - destruct (forallb _ _) eqn:F; simpl.
    + eexists. split_and!; [done|apply quiet_set_db|]. simpl.
      by destruct (db w).
    + unfold update_pluginNames. rewrite store_op_reliable. simpl.
      eexists. split_and!; [done| |].
      * eapply quiet_trans; apply quiet_set_db.
      * simpl. unfold Store.with_users. f_equal. simpl.
        by rewrite (merge_is_insert _ h u).
  - rewrite set_reliable. eexists. split_and!; [done| |done].
    eapply quiet_trans; apply quiet_set_db.
Qed.

Lemma updateCounter_reliable h w :
  ∃ w1, updateCounter env h w = (Ok tt, w1) ∧ quiet w w1
        ∧ db w1 = Store.with_counter (counter_after h) (db w).
Proof.
  unfold updateCounter. erewrite bind_ok by apply get_reliable. simpl.
  unfold counter_after.
  destruct (Store.counter (db w) !! h) as [v|] eqn:E; rewrite set_reliable;
    (eexists; split_and!;
       [ done
       | eapply quiet_trans; apply quiet_set_db
       | simpl; unfold Store.with_counter; simpl; by rewrite E ]).
Qed.

Lemma updateInstallDate_reliable h now w :
  ∃ w1, updateInstallDate env h now w = (Ok tt, w1) ∧ quiet w w1
        ∧ db w1 = Store.with_installDate
                    (installDate_after h (Luxon.toISODate now)) (db w).
Proof.
  unfold updateInstallDate. erewrite bind_ok by apply get_reliable. simpl.
  unfold installDate_after, Store.with_installDate.
  destruct (Store.installDate (db w) !! h) as [v|] eqn:E.
  - eexists. split_and!; [done|apply quiet_set_db|]. simpl.
    by destruct (db w).
  - rewrite set_reliable. eexists. split_and!; [done| |].
    + eapply quiet_trans; apply quiet_set_db.
    + done.
Qed.

Lemma updateRtdb_reliable b h w :
  HostId.hostId (Body.hostname b) = Some h →
  ∃ w1, updateRtdb env (Some b) w = (Ok tt, w1) ∧ quiet w w1
        ∧ Store.users (db w1)
          = users_after h (or_empty (Body.pluginNames b)) (Store.users (db w))
        ∧ Store.counter (db w1) = counter_after h (Store.counter (db w))
        ∧ Store.installDate (db w1)
          = installDate_after h (Luxon.toISODate (local_at env (tick w)))
              (Store.installDate (db w))
        ∧ Store.lastModified (db w1)
          = <[h := Luxon.toISODate (local_at env (tick w))]> (Store.lastModified (db w))
        ∧ Store.summary (db w1) = Store.summary (db w).
Proof.
  intros Hh. unfold updateRtdb.
  destruct (updateUser_reliable h b w) as (w1 & E1 & Q1 & D1).
  destruct (updateCounter_reliable h w1) as (w2 & E2 & Q2 & D2).
  destruct (updateInstallDate_reliable h (local_at env (tick w)) w2)
    as (w3 & E3 & Q3 & D3).
  rewrite (bind_ok (property_access (Some b)) _ w b w) by done.
  unfold formattedHostname_of. rewrite Hh.
  rewrite (bind_ok (mret h) _ w h w) by done.
  rewrite (bind_ok (DateTime_local env) _ w (local_at env (tick w)) w) by done.
  erewrite bind_ok by (by eapply try_catch_ok).
  erewrite bind_ok by (by eapply try_catch_ok).
  erewrite bind_ok by (by eapply try_catch_ok).
  erewrite try_catch_ok by apply set_reliable.
  eexists. split; [done|]. split.
  { eapply quiet_trans; [|apply quiet_set_db].
    eapply quiet_trans; [|done]. by eapply quiet_trans. }
  simpl. rewrite D3, D2, D1. by split_and!.
Qed.

Lemma updateSummary_reliable w :
  ∃ w1, updateSummary env w = (Ok tt, w1)
        ∧ (tick w < tick w1)%nat ∧ sent w1 = sent w ∧ fetched w1 = fetched w
        ∧ unhandled w1 = unhandled w
        ∧ (Store.counter (db w) ≠ ∅ → console w1 = console w)
        ∧ db w1 = Store.with_summary
                    (summary_after (recorder_stamp env (tick w)) (Store.counter (db w)))
                    (db w).
Proof.
  unfold updateSummary.
  rewrite (bind_ok (DateTime_local env) _ w (local_at env (tick w)) w) by done.
  erewrite bind_ok by apply get_reliable.
  unfold Store.with_summary, summary_after. simpl.
  fold (local_at env (tick w)). fold (recorder_stamp env (tick w)).
  destruct (Store.summary (db w) !! _) as [s|] eqn:E.
  { eexists. split_and!; [done|simpl; lia|done..|]. simpl. by destruct (db w). }
  erewrite bind_ok by apply get_reliable. simpl.
  destruct (decide (Store.counter (db w) = ∅)) as [Hempty|Hne].
  { eexists. split_and!; [done|simpl; lia|done..|]. simpl. by destruct (db w). }
  rewrite set_reliable. eexists. split_and!; [done|simpl; lia|done..|].
  simpl. unfold Store.with_summary. simpl.
  by rewrite length_Object_values, sum_Object_values.
Qed.

(** A recorder call that meets no rejection. *)
Lemma recorder_reliable req b h w :
  posts env req b → HostId.hostId (Body.hostname b) = Some h →
  ∃ w' n, recorder env req w = (Returned, w')
          ∧ (tick w ≤ n < tick w')%nat
          ∧ db w' = recorded env h (or_empty (Body.pluginNames b)) (tick w) n (db w)
          ∧ console w' = console w
          ∧ sent w' = (sent w ++ [{| status := 200;
                                     json := Data.message "データベースへ追加しました" |}])%list
          ∧ fetched w' = fetched w ∧ unhandled w' = unhandled w.
Proof.
  intros [Hm Hp] Hh.
  destruct (updateRtdb_reliable b h w Hh)
    as (w1 & E1 & (T1 & C1 & S1 & F1 & U1) & Du & Dc & Di & Dl & Ds).
  destruct (updateSummary_reliable w1) as (w2 & E2 & T2 & S2 & F2 & U2 & C2 & D2).
  exists (snd (res_status_json 200 (Data.message "データベースへ追加しました") w2)), (tick w1).
  unfold recorder, recorder_try. rewrite Hm, String.eqb_refl. cbn [negb].
  unfold parse_body. rewrite Hp.
  rewrite (bind_ok (mret (Some b)) _ w (Some b) w) by done.
  erewrite (bind_ok (try_catch _ _) _ w false w1); cycle 1.
  { apply try_catch_ok. by erewrite bind_ok by done. }
  erewrite (bind_ok (try_catch _ _) _ w1 tt w2); cycle 1.
  { apply try_catch_ok. unfold floating. by rewrite E2. }
  simpl. split_and!; try done; try lia; try congruence.
  - rewrite D2. unfold recorded, Store.with_summary. by rewrite Du, Dc, Di, Dl, Ds.
  - rewrite C2, C1; [done|]. rewrite Dc. apply insert_non_empty.
Qed.


End Reliable.

(** ** What the store steps leave alone: responses and fetches *)

Lemma silent_refl w : silent w w.
Proof. done. Qed.
Lemma silent_trans w1 w2 w3 : silent w1 w2 → silent w2 w3 → silent w1 w3.
Proof. intros [??] [??]. split; congruence. Qed.
Lemma silent_log msg w : silent w (log msg w).
Proof. done. Qed.
Lemma silent_orphan e w : silent w (orphan e w).
Proof. done. Qed.

#[local] Hint Resolve silent_refl silent_trans silent_log silent_orphan : frame.

Section Silent.

Context (env : Env).

Lemma store_op_silent {A} o (f : Store.t → A * Store.t) :
  respects silent (store_op env o f).
Proof. by apply respects_store_op. Qed.

Lemma updateUser_silent h b : respects silent (updateUser env h b).
Proof.
  unfold updateUser, get, set, update_pluginNames.
  pose proof @store_op_silent. frame_steps.
  destruct a; [destruct (negb _)|]; frame_steps.
Qed.

Lemma updateCounter_silent h : respects silent (updateCounter env h).
Proof.
  unfold updateCounter, get, set. pose proof @store_op_silent. frame_steps.
  destruct a; frame_steps.
Qed.

Lemma updateInstallDate_silent h now : respects silent (updateInstallDate env h now).
Proof.
  unfold updateInstallDate, get, set. pose proof @store_op_silent. frame_steps.
  destruct a; frame_steps.
Qed.

Lemma updateRtdb_silent b : respects silent (updateRtdb env b).
Proof.
  unfold updateRtdb, set.
  pose proof updateUser_silent. pose proof updateCounter_silent.
  pose proof updateInstallDate_silent. pose proof @store_op_silent.
  frame_steps.
Qed.

Lemma updateSummary_silent : respects silent (updateSummary env).
Proof.
  unfold updateSummary, get, set. pose proof @store_op_silent. frame_steps.
  destruct a0; frame_steps. destruct a0; frame_steps.
Qed.

(** A guarded step always completes. *)
Lemma guarded_completes (m : M unit) msg w :
  ∃ w1, try_catch m (fun _ => console_error msg) w = (Ok tt, w1).
Proof.
  unfold try_catch. destruct (m w) as [[[]|e] w1]; eauto.
Qed.

(** Past its first two lines, [updateRtdb] cannot throw. *)
Lemma updateRtdb_completes b w :
  is_Some (HostId.hostId (Body.hostname b)) →
  ∃ w1, updateRtdb env (Some b) w = (Ok tt, w1).
Proof.
  intros [h Hh]. unfold updateRtdb.
  rewrite (bind_ok (property_access (Some b)) _ w b w) by done.
  unfold formattedHostname_of. rewrite Hh.
  rewrite (bind_ok (mret h) _ w h w) by done.
  rewrite (bind_ok (DateTime_local env) _ w (local_at env (tick w)) w) by done.
  edestruct guarded_completes as [w1 E1]. erewrite bind_ok by exact E1.
  edestruct guarded_completes as [w2 E2]. erewrite bind_ok by exact E2.
  edestruct guarded_completes as [w3 E3]. erewrite bind_ok by exact E3.
  apply guarded_completes.
Qed.

(** The [catch] around the floating call never runs. *)
Lemma floating_never_caught (m : M unit) h w :
  try_catch (floating m) h w = floating m w.
Proof. unfold try_catch, floating. by destruct (m w) as [[[]|e] w1]. Qed.

Lemma floating_completes (m : M unit) w : ∃ w1, floating m w = (Ok tt, w1).
Proof. unfold floating. destruct (m w) as [[[]|e] w1]; eauto. Qed.

(** The recorder's answer when the host-update sequence completed. *)
Lemma recorder_answers_200 req b w :
  posts env req b → is_Some (HostId.hostId (Body.hostname b)) →
  ∃ w2, recorder env req w
        = (Returned,
           respond {| status := 200; json := Data.message "データベースへ追加しました" |} w2)
        ∧ silent w w2.
Proof.
  intros [Hm Hp] Hh.
  destruct (updateRtdb_completes b w Hh) as [w1 E1].
  destruct (floating_completes (updateSummary env) w1) as [w2 E2].
  exists w2. split.
  - unfold recorder, recorder_try. rewrite Hm, String.eqb_refl.
    unfold parse_body. rewrite Hp.
    rewrite (bind_ok (mret (Some b)) _ w (Some b) w) by done.
    erewrite (bind_ok (try_catch _ _) _ w false w1); cycle 1.
    { apply try_catch_ok. by erewrite bind_ok by done. }
    erewrite (bind_ok (try_catch _ _) _ w1 tt w2); cycle 1.
    { by rewrite floating_never_caught. }
    done.
  - eapply silent_trans; [by eapply updateRtdb_silent|].
    eapply (respects_floating silent); [..|exact E2]; eauto with frame.
    apply updateSummary_silent.
Qed.

(** The recorder's answer when the host-update sequence threw. *)
Lemma recorder_answers_500 req ob e w w1 :
  method req = "POST" → JSON_parse env (body req) = Some ob →
  updateRtdb env ob w = (Err e, w1) →
  ∃ c w3 r, recorder env req w = (c, w3)
            ∧ fetched w3 = (fetched w ++ fallback_calls env ob)%list
            ∧ sent w3 = (sent w ++ [r])%list ∧ status r = 500.
Proof.
  intros Hm Hp E1.
  destruct (floating_completes (updateSummary env)
              (log "realtime database更新時にエラーが発生しました" w1)) as [w2 E2].
  assert (Hs : silent w w2).
  { eapply silent_trans; [by eapply updateRtdb_silent|].
    eapply silent_trans; [apply silent_log|].
    eapply (respects_floating silent); [..|exact E2]; eauto with frame.
    apply updateSummary_silent. }
  destruct Hs as [Hsent Hfetched].
  unfold recorder, recorder_try. rewrite Hm, String.eqb_refl.
  unfold parse_body. rewrite Hp.
  rewrite (bind_ok (mret ob) _ w ob w) by done.
  erewrite (bind_ok (try_catch _ _) _ w true); cycle 1.
  { unfold try_catch. unfold mbind at 1, M_bind at 1. rewrite E1. reflexivity. }
  erewrite (bind_ok (try_catch _ _) _ _ tt w2); cycle 1.
  { by rewrite floating_never_caught. }
  cbn [negb]. unfold postToGAS, fallback_calls.
  destruct (GAS_END_POINT env) as [[|a u]|].
  - do 3 eexists. split; [reflexivity|]. simpl.
    rewrite Hsent, Hfetched, app_nil_r. done.
  - unfold mbind, M_bind, fetch. destruct (fetch_rejects env (tick w2)).
    + do 3 eexists. split; [reflexivity|]. simpl. rewrite Hsent, Hfetched. done.
    + do 3 eexists. split; [reflexivity|]. simpl. rewrite Hsent, Hfetched. done.
  - do 3 eexists. split; [reflexivity|]. simpl.
    rewrite Hsent, Hfetched, app_nil_r. done.
Qed.

End Silent.

(** ** The recorder's answers *)

(** C1, as the code has it: whatever the store rejects during the
    host-update sequence, each step catches its own failure, and the
    recorder answers 200 without calling the fallback endpoint. The fallback
    is called, once when an endpoint is configured and with the parsed body
    plus [from = "ribbit-next-app"], and the answer is a single 500, when
    [updateRtdb] itself throws, which it does exactly on a null body and on
    a hostname that has no [replace] method. *)
Theorem fallback_only_after_uncaught_error (env : Env) (req : Request) (w : World) :
  (∀ b, posts env req b → is_Some (HostId.hostId (Body.hostname b)) →
        ∃ w2, recorder env req w
              = (Returned,
                 respond {| status := 200;
                            json := Data.message "データベースへ追加しました" |} w2)
              ∧ sent w2 = sent w ∧ fetched w2 = fetched w)
  ∧ (∀ ob e w1, method req = "POST" → JSON_parse env (body req) = Some ob →
        updateRtdb env ob w = (Err e, w1) →
        ∃ c w3 r, recorder env req w = (c, w3)
                  ∧ fetched w3 = (fetched w ++ fallback_calls env ob)%list
                  ∧ sent w3 = (sent w ++ [r])%list ∧ status r = 500)
  ∧ (∀ ob, (∃ e w1, updateRtdb env ob w = (Err e, w1))
           ↔ match ob with
             | None => True
             | Some b => HostId.hostId (Body.hostname b) = None
             end).
Proof.
  split_and!.
  - intros b Hb Hh. destruct (recorder_answers_200 env req b w Hb Hh) as (w2 & E & S & F).
    eauto.
  - intros ob e w1. apply recorder_answers_500.
  - intros [b|]; [|by split; [|eexists _, _]].
    unfold updateRtdb.
    rewrite (bind_ok (property_access (Some b)) _ w b w) by done.
    unfold formattedHostname_of.
    destruct (HostId.hostId (Body.hostname b)) as [h|] eqn:Hh.
    + split; [|done]. intros (e & w1 & E).
      destruct (updateRtdb_completes env b w) as [w2 E2]; [by rewrite Hh; eexists|].
      unfold updateRtdb in E2.
      rewrite (bind_ok (property_access (Some b)) _ w b w) in E2 by done.
      unfold formattedHostname_of in E2. rewrite Hh in E2. congruence.
    + split; [done|]. intros _. by eexists _, _.
Qed.

Lemma fallback_only_after_uncaught_error_witness :
  (∃ w2, recorder Sample.env_down (Sample.post Sample.text_foo) (initial Store.empty)
         = (Returned,
            respond {| status := 200;
                       json := Data.message "データベースへ追加しました" |} w2)
         ∧ sent w2 = [] ∧ fetched w2 = [])
  ∧ (∃ c w3 r, recorder Sample.env (Sample.post Sample.text_number) (initial Store.empty)
               = (c, w3)
               ∧ fetched w3
                 = [{| url := "https://script.example/exec"; fetch_method := "POST";
                       payload := Sample.with_plugins (JNumber 5) ["a"];
                       from := "ribbit-next-app" |}]
               ∧ sent w3 = [r] ∧ status r = 500).
Proof.
  split.
  - apply (proj1 (fallback_only_after_uncaught_error Sample.env_down
                    (Sample.post Sample.text_foo) (initial Store.empty))
             (Sample.with_plugins (JString "foo.cybozu.com") ["a"; "b"])).
    + split; reflexivity.
    + eexists; reflexivity.
  - apply (proj1 (proj2 (fallback_only_after_uncaught_error Sample.env
                           (Sample.post Sample.text_number) (initial Store.empty)))
             (Some (Sample.with_plugins (JNumber 5) ["a"])) TypeError
             (initial Store.empty)); reflexivity.
Defined.

(** C1, as stated, fails: with a store that rejects every operation of the
    host-update sequence and a fallback endpoint configured, the recorder
    logs the four failures, answers 200 and fetches nothing. *)
Lemma rejected_updates_answer_200 :
  let out := recorder Sample.env_down (Sample.post Sample.text_foo) (initial Store.empty) in
  GAS_END_POINT Sample.env_down = Some "https://script.example/exec"
  ∧ console out.2 = ["ユーザー情報の更新に失敗しました"; "カウンターの更新に失敗しました";
                     "インストール日付の更新に失敗しました"; "更新日付の更新に失敗しました"]
  ∧ status <$> sent out.2 = [200]
  ∧ fetched out.2 = [].
Proof. by split_and!. Qed.

(** C6, on the code: the summary step is called without [await], so its
    rejection is no exception of the [try] around it. With a store that
    rejects the summary read, the recorder still answers 200, but the
    message of the [catch] is not logged and the rejection stays
    unhandled. *)
Theorem summary_rejection_escapes_the_catch :
  let out := recorder Sample.env_summary_down (Sample.post Sample.text_foo)
               (initial Store.empty) in
  out.1 = Returned
  ∧ sent out.2 = [{| status := 200; json := Data.message "データベースへ追加しました" |}]
  ∧ console out.2 = []
  ∧ unhandled out.2 = [StoreError (OpGet "kintone/summary/1970-01-02")].
Proof. by split_and!. Qed.

(** C9: a POST whose body is not valid JSON is answered with one 500 whose
    message ends in the serialised error, no store operation is issued, and
    the handler then throws. *)
Theorem malformed_body_answers_500_and_throws (env : Env) (req : Request) (w : World) :
  method req = "POST" → JSON_parse env (body req) = None →
  recorder env req w
  = (Thrown "API実行時にエラーが発生しました",
     respond {| status := 500;
                json := Data.message ("予期せぬエラーが発生しました。"
                                      ++ JSON_stringify env SyntaxError) |} w).
Proof.
  intros Hm Hp. unfold recorder, recorder_try. rewrite Hm, String.eqb_refl.
  unfold parse_body. by rewrite Hp.
Qed.

Lemma malformed_body_answers_500_and_throws_witness :
  recorder Sample.env (Sample.post "{") (initial Store.empty)
  = (Thrown "API実行時にエラーが発生しました",
     respond {| status := 500; json := Data.message "予期せぬエラーが発生しました。{}" |}
       (initial Store.empty)).
Proof.
  apply (malformed_body_answers_500_and_throws Sample.env (Sample.post "{")
           (initial Store.empty)); reflexivity.
Defined.

(** C10: on any method but POST the recorder returns with the world
    untouched: nothing sent, no store operation, nothing thrown. The reader
    answers 400 on any method but GET. *)
Theorem recorder_ignores_other_methods (env : Env) (req : Request) (w : World) :
  (method req ≠ "POST" → recorder env req w = (Returned, w))
  ∧ (method req ≠ "GET" →
     reader env req w
     = (Returned, respond {| status := 400; json := Data.message "パラメータが不正です" |} w)).
Proof.
  split; intros Hm.
  - unfold recorder, recorder_try. by destruct (String.eqb_spec (method req) "POST").
  - unfold reader, reader_try. by destruct (String.eqb_spec (method req) "GET").
Qed.

Lemma recorder_ignores_other_methods_witness :
  recorder Sample.env Sample.get_counter (initial Sample.one_host)
  = (Returned, initial Sample.one_host)
  ∧ reader Sample.env (Sample.post Sample.text_foo) (initial Sample.one_host)
    = (Returned,
       respond {| status := 400; json := Data.message "パラメータが不正です" |}
         (initial Sample.one_host)).
Proof.
  split.
  - apply (proj1 (recorder_ignores_other_methods Sample.env Sample.get_counter
                    (initial Sample.one_host))). discriminate.
  - apply (proj2 (recorder_ignores_other_methods Sample.env (Sample.post Sample.text_foo)
                    (initial Sample.one_host))). discriminate.
Defined.

(** ** Sequences of calls *)



(** ** The host counter *)

Section Counter.

Context (env : Env) (Hrel : reliable env) (h : string).




End Counter.






(** ** The plugin names of a host *)


Section Plugins.

Context (env : Env) (Hrel : reliable env) (h : string).

Lemma recorder_registers req P w :
  carries env h req P →
  Store.users (db (recorder env req w).2) = users_after h P (Store.users (db w)).
Proof.
  intros (b & Hb & Hh & HP).
  destruct (recorder_reliable env Hrel req b h w Hb Hh) as (w' & n & E & _ & D & _).
  rewrite E. simpl. by rewrite D, HP.
Qed.


End Plugins.






(** ** Install dates *)




(** ** Daily summaries *)

Lemma call_writes_summary env c w k :
  Store.summary (db (call env c w).2) !! k = Store.summary (db w) !! k
  ∨ Store.summary (db w) !! k = None
    ∧ ∃ n s, (tick w ≤ n < tick (call env c w).2)%nat
             ∧ k = Luxon.toISODate (stamp_of env c n)
             ∧ Store.summary (db (call env c w).2) !! k = Some s
             ∧ Summary.unixTime s = Luxon.toUnixInteger (stamp_of env c n).
Proof. destruct (call_lawful env c w) as [[_ H] _]. apply H. Qed.




(** C7: a summary entry that the recorder writes is keyed by the ISO date
    of a reading of the local clock moved nine hours ahead, and carries that
    moved instant in seconds; one that the reader writes is keyed and
    stamped by the reading itself. At one and the same instant the two can
    therefore write under different dates. *)
Theorem summary_stamps_differ_by_nine_hours :
  (∀ env req w k s,
     Store.summary (db w) !! k = None →
     Store.summary (db (recorder env req w).2) !! k = Some s →
     ∃ n, (tick w ≤ n < tick (recorder env req w).2)%nat
          ∧ k = Luxon.toISODate (Luxon.plus_hours (local_at env n) 9)
          ∧ Summary.unixTime s = (clock env n + 9 * 3600000) / 1000)
  ∧ (∀ env req w k s,
       Store.summary (db w) !! k = None →
       Store.summary (db (reader env req w).2) !! k = Some s →
       ∃ n, (tick w ≤ n < tick (reader env req w).2)%nat
            ∧ k = Luxon.toISODate (local_at env n)
            ∧ Summary.unixTime s = clock env n / 1000)
  ∧ (let w := initial Sample.one_host in
     let by_recorder := (recorder Sample.env_stopped (Sample.post Sample.text_foo) w).2 in
     let by_reader := (reader Sample.env_stopped Sample.get_counter w).2 in
     (∀ n, clock Sample.env_stopped n = 72000000)
     ∧ is_Some (Store.summary (db by_recorder) !! "1970-01-02")
     ∧ Store.summary (db by_recorder) !! "1970-01-01" = None
     ∧ is_Some (Store.summary (db by_reader) !! "1970-01-01")
     ∧ Store.summary (db by_reader) !! "1970-01-02" = None).
Proof.
  split_and!.
  - intros env req w k s Hnone Hs.
    destruct (call_writes_summary env (ToRecorder req) w k)
      as [E|(_ & n & s' & Hn & Hk & Hs' & Hu)]; simpl in *; [congruence|].
    exists n. split; [exact Hn | split; [exact Hk |]].
    assert (s = s') as -> by congruence. exact Hu.
  - intros env req w k s Hnone Hs.
    destruct (call_writes_summary env (ToReader req) w k)
      as [E|(_ & n & s' & Hn & Hk & Hs' & Hu)]; simpl in *; [congruence|].
    exists n. split; [exact Hn | split; [exact Hk |]].
    assert (s = s') as -> by congruence. exact Hu.
  - by split_and!.
Qed.

Lemma summary_stamps_differ_by_nine_hours_witness :
  (∃ n, (0 ≤ n < tick (recorder Sample.env (Sample.post Sample.text_foo)
                         (initial Store.empty)).2)%nat
        ∧ "1970-01-02" = Luxon.toISODate (Luxon.plus_hours (local_at Sample.env n) 9)
        ∧ 104400 = (clock Sample.env n + 9 * 3600000) / 1000)
  ∧ (∃ n, (0 ≤ n < tick (reader Sample.env Sample.get_counter
                           (initial Sample.one_host)).2)%nat
          ∧ "1970-01-01" = Luxon.toISODate (local_at Sample.env n)
          ∧ 72000 = clock Sample.env n / 1000).
Proof.
  split.
  - apply (proj1 summary_stamps_differ_by_nine_hours Sample.env
             (Sample.post Sample.text_foo) (initial Store.empty) "1970-01-02"
             {| Summary.unixTime := 104400; Summary.numUsers := 1; Summary.counter := 1 |});
      reflexivity.
  - apply (proj1 (proj2 summary_stamps_differ_by_nine_hours) Sample.env
             Sample.get_counter (initial Sample.one_host) "1970-01-01"
             {| Summary.unixTime := 72000; Summary.numUsers := 1; Summary.counter := 3 |});
      reflexivity.
Defined.

(** * Further properties of the code *)

(** ** Host ids as path segments *)

Module SegmentFacts.

Import Str HostId.

Lemma replace_dots_no_dot s : "."%char ∉ list_ascii_of_string (replace_dots s).
Proof.
  induction s as [|c s IH]; simpl; [apply not_elem_of_nil|].
  destruct (Ascii.eqb_spec c "."%char) as [->|Hc]; simpl.
  - intros H. repeat (apply elem_of_cons in H as [H|H]; [discriminate H|]). done.
  - intros [?|?]%elem_of_cons; [congruence|done].
Qed.

Lemma match_here_no_dot c s : c ≠ "."%char → match_here (String c s) = None.
Proof.
  intros Hc. unfold match_here, match_domain. cbn [strip_prefix].
  by destruct (Ascii.eqb_spec "."%char c) as [<-|_].
Qed.

Lemma match_here_suffix m r :
  m ∈ [".s.cybozu.com"; ".s.kintone.com"; ".cybozu.com"; ".kintone.com"] →
  match_here (m ++ r) = Some r.
Proof.
  intros H. repeat (apply elem_of_cons in H as [->|H]; [reflexivity|]).
  by apply elem_of_nil in H.
Qed.

Lemma replace_at_head s r :
  match_here s = Some r → replace_suffix_pattern s = r.
Proof. intros H. destruct s; cbn [replace_suffix_pattern]; by rewrite H. Qed.

Lemma replace_first_only p m r :
  "."%char ∉ list_ascii_of_string p →
  m ∈ [".s.cybozu.com"; ".s.kintone.com"; ".cybozu.com"; ".kintone.com"] →
  replace_suffix_pattern (p ++ m ++ r) = p ++ r.
Proof.
  intros Hp Hm. induction p as [|c p IH].
  - change (EmptyString ++ m ++ r) with (m ++ r).
    by apply replace_at_head, match_here_suffix.
  - change (String c p ++ m ++ r) with (String c (p ++ m ++ r)).
    simpl in Hp. apply not_elem_of_cons in Hp as [Hc Hp].
    cbn [replace_suffix_pattern]. rewrite match_here_no_dot by done.
    change (String c p ++ r) with (String c (p ++ r)). f_equal. by apply IH.
Qed.

Lemma replace_dots_app p r :
  "."%char ∉ list_ascii_of_string p → replace_dots (p ++ r) = p ++ replace_dots r.
Proof.
  intros Hp. induction p as [|c p IH]; [done|].
  simpl in Hp. apply not_elem_of_cons in Hp as [Hc Hp].
  change (String c p ++ r) with (String c (p ++ r)). cbn [replace_dots].
  destruct (Ascii.eqb_spec c "."%char); [done|].
  change (String c p ++ replace_dots r) with (String c (p ++ replace_dots r)).
  f_equal. by apply IH.
Qed.

Lemma app_not_empty p m r : m ≠ EmptyString → p ++ m ++ r ≠ EmptyString.
Proof. destruct p; [|done]. by destruct m. Qed.

End SegmentFacts.

(** X1: whatever the request sends as hostname, a host id that is computed
    contains no dot. *)
Theorem hostId_has_no_dot (hostname : option JSON) (h : string) :
  HostId.hostId hostname = Some h → "."%char ∉ list_ascii_of_string h.
Proof.
  unfold HostId.hostId, HostId.formatHostname.
  destruct (HostId.or_undefined hostname); try done.
  intros [= <-]. apply SegmentFacts.replace_dots_no_dot.
Qed.

Lemma hostId_has_no_dot_witness :
  "."%char ∉ list_ascii_of_string "a_dot_b_dot_example_dot_org".
Proof.
  apply (hostId_has_no_dot (Some (JString "a.b.cybozu.com.example.org"))).
  reflexivity.
Defined.

(** X2: for a name that starts with a dot-free label [p], goes on with one
    of the four platform suffixes and ends with any rest [r], the host id
    is [p] followed by [r] with its dots replaced: the first occurrence of
    the pattern is deleted wherever it stands, a later one is kept, and the
    four domains of one label share one host id. *)
Theorem hostId_deletes_first_occurrence (p m r : string) :
  "."%char ∉ list_ascii_of_string p →
  m ∈ [".s.cybozu.com"; ".s.kintone.com"; ".cybozu.com"; ".kintone.com"] →
  HostId.hostId (Some (JString (p ++ m ++ r))) = Some (p ++ HostId.replace_dots r).
Proof.
  intros Hp Hm. unfold HostId.hostId, HostId.or_undefined, truthy.
  assert (Hne : p ++ m ++ r ≠ EmptyString).
  { apply SegmentFacts.app_not_empty. intros ->.
    repeat (apply elem_of_cons in Hm as [Hm|Hm]; [discriminate Hm|]).
    by apply elem_of_nil in Hm. }
  destruct (String.eqb_spec (p ++ m ++ r) EmptyString); [done|]. simpl.
  unfold HostId.formatHostname.
  by rewrite SegmentFacts.replace_first_only, SegmentFacts.replace_dots_app.
Qed.

Lemma hostId_deletes_first_occurrence_witness :
  HostId.hostId (Some (JString ("dev" ++ ".s.kintone.com" ++ ".cybozu.com")))
  = Some ("dev" ++ HostId.replace_dots ".cybozu.com").
Proof.
  apply hostId_deletes_first_occurrence.
  - vm_compute. intros H.
    repeat (apply elem_of_cons in H as [H|H]; [discriminate H|]).
    by apply elem_of_nil in H.
  - apply elem_of_cons. right. apply elem_of_cons. by left.
Defined.

(** ** Which collections a step touches *)


Lemma same_but_db k w w' : db w' = db w → same_but k w w'.
Proof. intros H. unfold same_but. by rewrite H. Qed.

Lemma same_but_refl k w : same_but k w w.
Proof. by apply same_but_db. Qed.
Lemma same_but_trans k w1 w2 w3 : same_but k w1 w2 → same_but k w2 w3 → same_but k w1 w3.
Proof.
  intros (U1 & C1 & I1 & L1 & S1) (U2 & C2 & I2 & L2 & S2).
  split_and!; intros Hk.
  - by rewrite U2, U1. - by rewrite C2, C1. - by rewrite I2, I1.
  - by rewrite L2, L1. - by rewrite S2, S1.
Qed.
Lemma same_but_log k msg w : same_but k w (log msg w).
Proof. by apply same_but_db. Qed.
Lemma same_but_orphan k e w : same_but k w (orphan e w).
Proof. by apply same_but_db. Qed.
Lemma same_but_respond k r w : same_but k w (respond r w).
Proof. by apply same_but_db. Qed.
Lemma same_but_called k c w : same_but k w (called c w).
Proof. by apply same_but_db. Qed.

Lemma host_kept_db h w w' : db w' = db w → host_kept h w w'.
Proof. intros H. unfold host_kept. by rewrite H. Qed.

Lemma host_kept_refl h w : host_kept h w w.
Proof. by apply host_kept_db. Qed.
Lemma host_kept_trans h w1 w2 w3 : host_kept h w1 w2 → host_kept h w2 w3 → host_kept h w1 w3.
Proof. intros (?&?&?&?) (?&?&?&?). split_and!; congruence. Qed.
Lemma host_kept_log h msg w : host_kept h w (log msg w).
Proof. by apply host_kept_db. Qed.
Lemma host_kept_orphan h e w : host_kept h w (orphan e w).
Proof. by apply host_kept_db. Qed.
Lemma host_kept_respond h r w : host_kept h w (respond r w).
Proof. by apply host_kept_db. Qed.
Lemma host_kept_called h c w : host_kept h w (called c w).
Proof. by apply host_kept_db. Qed.

Lemma counters_grow_same w w' :
  Store.counter (db w') = Store.counter (db w) → counters_grow w w'.
Proof. intros H h v Hv. rewrite H. exists v. split; [done|lia]. Qed.

Lemma counters_grow_refl w : counters_grow w w.
Proof. by apply counters_grow_same. Qed.
Lemma counters_grow_trans w1 w2 w3 :
  counters_grow w1 w2 → counters_grow w2 w3 → counters_grow w1 w3.
Proof.
  intros H12 H23 h v Hv. destruct (H12 h v Hv) as (v1 & Hv1 & ?).
  destruct (H23 h v1 Hv1) as (v2 & Hv2 & ?). exists v2. split; [done|lia].
Qed.
Lemma counters_grow_log msg w : counters_grow w (log msg w).
Proof. by apply counters_grow_same. Qed.
Lemma counters_grow_orphan e w : counters_grow w (orphan e w).
Proof. by apply counters_grow_same. Qed.
Lemma counters_grow_respond r w : counters_grow w (respond r w).
Proof. by apply counters_grow_same. Qed.
Lemma counters_grow_called c w : counters_grow w (called c w).
Proof. by apply counters_grow_same. Qed.

#[local] Hint Resolve same_but_refl same_but_trans same_but_log same_but_orphan
  same_but_respond same_but_called host_kept_refl host_kept_trans host_kept_log
  host_kept_orphan host_kept_respond host_kept_called counters_grow_refl
  counters_grow_trans counters_grow_log counters_grow_orphan counters_grow_respond
  counters_grow_called : frame.

(** Closes a [same_but] goal of a run. *)
Ltac same_fields := unfold same_but; simpl; by split_and!.


Section Touches.

Context (env : Env).






Lemma getResponseFromRtdb_touches :
  respects (same_but DailySummary) (getResponseFromRtdb env).
Proof.
  intros w r w'. unfold getResponseFromRtdb, values_of, try_catch, throw.
  runs; same_fields.
Qed.








Lemma reader_respects (R : World → World → Prop) req w :
  (∀ w, R w w) → (∀ w1 w2 w3, R w1 w2 → R w2 w3 → R w1 w3) →
  (∀ r w, R w (respond r w)) →
  respects R (getResponseFromRtdb env) →
  R w (reader env req w).2.
Proof.
  intros Hrefl Htrans Hrespond Hget.
  assert (Htry : respects R (reader_try env req)).
  { unfold reader_try. destruct (negb _).
    - intros w0 r w' [= _ <-]. apply Hrespond.
    - apply respects_bind; [done..|].
      intros a w0 r w' [= _ <-]. apply Hrespond. }
  unfold reader. destruct (reader_try env req w) as [[a|e] w1] eqn:E; simpl.
  - by eapply Htry.
  - eapply Htrans; [by eapply Htry | apply Hrespond].
Qed.

End Touches.





(** X5: the reader writes nothing but a summary: whatever the request and
    whatever the store rejects, the four other collections are as before. *)
Theorem reader_writes_summaries_only (env : Env) (req : Request) (w : World) :
  let w' := (reader env req w).2 in
  Store.users (db w') = Store.users (db w)
  ∧ Store.counter (db w') = Store.counter (db w)
  ∧ Store.installDate (db w') = Store.installDate (db w)
  ∧ Store.lastModified (db w') = Store.lastModified (db w).
Proof.
  assert (H : same_but DailySummary w (reader env req w).2).
  { apply reader_respects; eauto with frame. apply getResponseFromRtdb_touches. }
  destruct H as (U & C & I & L & _). by split_and!; [apply U|apply C|apply I|apply L].
Qed.

(** ** The steps of a recorder call, one by one *)

Section Pipeline.

Context (env : Env).








End Pipeline.





(** ** The reader's answers *)

(** Opens a whole handler on a goal. *)
Ltac open_reader :=
  unfold reader, reader_try, getResponseFromRtdb, values_of, try_catch, throw,
    res_status_json, get, set, store_op, DateTime_local, console_error,
    mbind, M_bind, mret, M_ret.

(** X8: a GET that the reader cannot serve is answered with one 500 and
    changes nothing in the store: when the read of the counter collection
    is rejected, the message ends in the serialised store error; when the
    collection has no counter, it ends in the serialised [TypeError] of
    [Object.values(null)]. *)
Theorem reader_answers_500_without_counters (env : Env) (req : Request) (w : World) :
  method req = "GET" →
  (rejects env (tick w) (OpGet "kintone/counter") = true →
   reader env req w
   = (Returned,
      respond {| status := 500;
                 json := Data.message ("予期せぬエラーが発生しました。"
                                       ++ store_error_json env) |}
        (set_db (db w) w)))
  ∧ (rejects env (tick w) (OpGet "kintone/counter") = false →
     Store.counter (db w) = ∅ →
     reader env req w
     = (Returned,
        respond {| status := 500;
                   json := Data.message "予期せぬエラーが発生しました。{}" |}
          (set_db (db w) w))).
Proof.
  intros Hm. split.
  - intros Hrej. open_reader. rewrite Hm, String.eqb_refl. simpl. by rewrite Hrej.
  - intros Hrej Hempty. open_reader. rewrite Hm, String.eqb_refl. simpl.
    rewrite Hrej. by rewrite decide_True.
Qed.

Lemma reader_answers_500_without_counters_witness :
  reader Sample.env_down Sample.get_counter (initial Sample.one_host)
  = (Returned,
     respond {| status := 500; json := Data.message "予期せぬエラーが発生しました。{}" |}
       (set_db Sample.one_host (initial Sample.one_host)))
  ∧ reader Sample.env Sample.get_counter (initial Store.empty)
    = (Returned,
       respond {| status := 500; json := Data.message "予期せぬエラーが発生しました。{}" |}
         (set_db Store.empty (initial Store.empty))).
Proof.
  split.
  - apply (proj1 (reader_answers_500_without_counters Sample.env_down Sample.get_counter
                    (initial Sample.one_host) eq_refl)). reflexivity.
  - apply (proj2 (reader_answers_500_without_counters Sample.env Sample.get_counter
                    (initial Store.empty) eq_refl)); reflexivity.
Defined.



(** X10: from a store without counters no summary is written: neither the
    summary step of the recorder nor a reader call changes the store,
    whatever the store rejects. *)
Theorem no_summary_without_counters (env : Env) (w : World) :
  Store.counter (db w) = ∅ →
  db (updateSummary env w).2 = db w ∧ ∀ req, db (reader env req w).2 = db w.
Proof.
  intros Hempty. split.
  - destruct (updateSummary env w) as [r w'] eqn:E. revert E.
    unfold updateSummary. runs; done.
  - intros req. open_reader. simpl.
    destruct (negb _); [done|].
    destruct (rejects env (tick w) _); [done|]. by rewrite decide_True.
Qed.

Lemma no_summary_without_counters_witness :
  db (updateSummary Sample.env (initial Store.empty)).2 = Store.empty
  ∧ ∀ req, db (reader Sample.env req (initial Store.empty)).2 = Store.empty.
Proof. apply (no_summary_without_counters Sample.env (initial Store.empty)). reflexivity. Defined.

(** ** The two routes together *)






(** ** Registering the same plugins again *)

Lemma users_after_idempotent h P (m : gmap string User.t) :
  users_after h P (users_after h P m) = users_after h P m.
Proof.
  assert (Hall : ∀ l : list string, (∀ x, x ∈ P → x ∈ l) →
                      forallb (fun plugin => bool_decide (plugin ∈ l)) P = true).
  { intros l Hl. apply forallb_forall. intros x Hx.
    apply bool_decide_eq_true, Hl. by apply list_elem_of_In. }
  destruct (m !! h) as [u|] eqn:E.
  - destruct (forallb (fun plugin => bool_decide (plugin ∈ User.pluginNames u)) P) eqn:F.
    + assert (H1 : users_after h P m = m) by (unfold users_after; by rewrite E, F).
      by rewrite !H1.
    + assert (H1 : users_after h P m
                   = <[h := {| User.name := User.name u;
                               User.pluginNames :=
                                 Set_spread (P ++ User.pluginNames u) |}]> m)
        by (unfold users_after; by rewrite E, F).
      rewrite !H1. unfold users_after. rewrite lookup_insert_eq. simpl.
      rewrite Hall; [done|]. intros x Hx.
      apply elem_of_Set_spread, elem_of_app. by left.
  - assert (H1 : users_after h P m
                 = <[h := {| User.name := Some EmptyString; User.pluginNames := P |}]> m)
      by (unfold users_after; by rewrite E).
    rewrite !H1. unfold users_after. rewrite lookup_insert_eq. simpl. by rewrite Hall.
Qed.

(** X12: with a store that rejects nothing, repeating a recorder call of a
    host with the same plugin names leaves the records as the first call
    made them. *)
Theorem registering_twice_changes_nothing (env : Env) (h : string)
    (req1 req2 : Request) (P : list string) (w : World) :
  reliable env → carries env h req1 P → carries env h req2 P →
  Store.users (db (recorder env req2 (recorder env req1 w).2).2)
  = Store.users (db (recorder env req1 w).2).
Proof.
  intros Hrel H1 H2.
  rewrite (recorder_registers env Hrel h req2 P) by done.
  rewrite (recorder_registers env Hrel h req1 P) by done.
  apply users_after_idempotent.
Qed.

Lemma registering_twice_changes_nothing_witness :
  Store.users
    (db (recorder Sample.env (Sample.post Sample.text_foo)
           (recorder Sample.env (Sample.post Sample.text_foo)
              (initial Store.empty)).2).2)
  = Store.users (db (recorder Sample.env (Sample.post Sample.text_foo)
                       (initial Store.empty)).2).
Proof.
  apply (registering_twice_changes_nothing Sample.env "foo" (Sample.post Sample.text_foo)
           (Sample.post Sample.text_foo) ["a"; "b"] (initial Store.empty)).
  - by intros n o.
  - eexists. split_and!; [split|..]; reflexivity.
  - eexists. split_and!; [split|..]; reflexivity.
Defined.

(** ** The failure branch of the recorder *)



(** ** Store traffic *)

Section Traffic.

Context (env : Env).

Lemma within_weaken {A} a b (m : M A) : (a ≤ b)%nat → within a m → within b m.
Proof. intros Hab Hm w r w' E. specialize (Hm w r w' E). lia. Qed.

Lemma within_ret {A} (a : A) : within 0 (mret a).
Proof. intros w r w' [= _ <-]. lia. Qed.

Lemma within_throw {A} e : within 0 (@throw A e).
Proof. intros w r w' [= _ <-]. lia. Qed.

Lemma within_bind {A B} a b (m : M A) (f : A → M B) :
  within a m → (∀ x, within b (f x)) → within (a + b) (m ≫= f).
Proof.
  intros Hm Hf w r w'. unfold mbind, M_bind.
  destruct (m w) as [[x|e] w1] eqn:E.
  - intros E'. specialize (Hm _ _ _ E). specialize (Hf _ _ _ _ E'). lia.
  - intros [= _ <-]. specialize (Hm _ _ _ E). lia.
Qed.

Lemma within_guarded a (m : M unit) msg :
  within a m → within a (try_catch m (fun _ => console_error msg)).
Proof.
  intros Hm w r w'. unfold try_catch.
  destruct (m w) as [[x|e] w1] eqn:E; intros [= _ <-]; specialize (Hm _ _ _ E);
    simpl; lia.
Qed.

Lemma within_floating a (m : M unit) : within a m → within a (floating m).
Proof.
  intros Hm w r w'. unfold floating.
  destruct (m w) as [[x|e] w1] eqn:E; intros [= _ <-]; specialize (Hm _ _ _ E);
    simpl; lia.
Qed.

Lemma updateUser_within h b : within 2 (updateUser env h b).
Proof. intros w r w'. unfold updateUser. runs; simpl; lia. Qed.

Lemma updateCounter_within h : within 2 (updateCounter env h).
Proof. intros w r w'. unfold updateCounter. runs; simpl; lia. Qed.

Lemma updateInstallDate_within h now : within 2 (updateInstallDate env h now).
Proof. intros w r w'. unfold updateInstallDate. runs; simpl; lia. Qed.

Lemma set_within {V} (r : Ref V) v : within 1 (set env r v).
Proof. intros w r0 w'. runs; simpl; lia. Qed.

Lemma updateSummary_within : within 3 (updateSummary env).
Proof. intros w r w'. unfold updateSummary. runs; simpl; lia. Qed.

Lemma getResponseFromRtdb_within : within 3 (getResponseFromRtdb env).
Proof.
  intros w r w'. unfold getResponseFromRtdb, values_of, try_catch, throw.
  runs; simpl; lia.
Qed.

Lemma updateRtdb_within ob : within 7 (updateRtdb env ob).
Proof.
  unfold updateRtdb.
  apply (within_bind 0 7); [destruct ob; [apply within_ret|apply within_throw]|].
  intros b. apply (within_bind 0 7).
  { unfold formattedHostname_of.
    destruct (HostId.hostId _); [apply within_ret|apply within_throw]. }
  intros h. apply (within_bind 0 7); [intros w r w' [= _ <-]; lia|].
  intros now. apply (within_bind 2 5); [apply within_guarded, updateUser_within|].
  intros _. apply (within_bind 2 3); [apply within_guarded, updateCounter_within|].
  intros _. apply (within_bind 2 1); [apply within_guarded, updateInstallDate_within|].
  intros _. apply within_guarded, set_within.
Qed.

Lemma postToGAS_within ob : within 0 (postToGAS env ob).
Proof.
  intros w r w'. unfold postToGAS, fetch, console_log, console_error.
  repeat case_match; intros [= _ <-]; simpl; lia.
Qed.

Lemma res_status_json_within code data : within 0 (res_status_json code data).
Proof. intros w r w' [= _ <-]. simpl. lia. Qed.

Lemma recorder_try_within req : within 10 (recorder_try env req).
Proof.
  unfold recorder_try.
  destruct (String.eqb _ _); [|eapply within_weaken; [|apply within_ret]; lia].
  apply (within_bind 0 10).
  { unfold parse_body. destruct (JSON_parse _ _); [apply within_ret|apply within_throw]. }
  intros ob. apply (within_bind 7 3).
  { intros w r w'. unfold try_catch, mbind, M_bind.
    destruct (updateRtdb env ob w) as [[[]|e] w1] eqn:E;
      pose proof (updateRtdb_within ob _ _ _ E); intros [= _ <-]; simpl; lia. }
  intros causedError. apply (within_bind 3 0).
  { intros w r w'. rewrite floating_never_caught.
    apply within_floating, updateSummary_within. }
  intros _. destruct (negb _); [apply res_status_json_within|].
  apply (within_bind 0 0); [apply postToGAS_within|].
  intros _. apply res_status_json_within.
Qed.

Lemma reader_try_within req : within 3 (reader_try env req).
Proof.
  unfold reader_try. destruct (negb _).
  - eapply within_weaken; [|apply res_status_json_within]. lia.
  - apply (within_bind 3 0); [apply getResponseFromRtdb_within|].
    intros d. apply res_status_json_within.
Qed.

End Traffic.

(** X14: whatever the request and whatever the store rejects, a recorder
    call issues at most ten operations on the store and a reader call at
    most three. *)
Theorem calls_issue_few_operations (env : Env) (req : Request) (w : World) :
  (tick w ≤ tick (recorder env req w).2 ≤ tick w + 10)%nat
  ∧ (tick w ≤ tick (reader env req w).2 ≤ tick w + 3)%nat.
Proof.
  split.
  - unfold recorder. destruct (recorder_try env req w) as [[a|e] w1] eqn:E;
      pose proof (recorder_try_within env req _ _ _ E); simpl; lia.
  - unfold reader. destruct (reader_try env req w) as [[a|e] w1] eqn:E;
      pose proof (reader_try_within env req _ _ _ E); simpl; lia.
Qed.

(** ** The two updates that are no longer called *)














(** ** The name of a record *)

Lemma names_kept_same w w' :
  Store.users (db w') = Store.users (db w) → names_kept w w'.
Proof. intros H h u Hu. rewrite H. eauto. Qed.

Lemma names_kept_refl w : names_kept w w.
Proof. by apply names_kept_same. Qed.
Lemma names_kept_trans w1 w2 w3 : names_kept w1 w2 → names_kept w2 w3 → names_kept w1 w3.
Proof.
  intros H12 H23 h u Hu. destruct (H12 h u Hu) as (u1 & Hu1 & E1).
  destruct (H23 h u1 Hu1) as (u2 & Hu2 & E2). exists u2. split; [done|congruence].
Qed.
Lemma names_kept_log msg w : names_kept w (log msg w).
Proof. by apply names_kept_same. Qed.
Lemma names_kept_orphan e w : names_kept w (orphan e w).
Proof. by apply names_kept_same. Qed.
Lemma names_kept_respond r w : names_kept w (respond r w).
Proof. by apply names_kept_same. Qed.
Lemma names_kept_called c w : names_kept w (called c w).
Proof. by apply names_kept_same. Qed.

#[local] Hint Resolve names_kept_refl names_kept_trans names_kept_log names_kept_orphan
  names_kept_respond names_kept_called : frame.



